(** * Response parsing and finding normalization of the code analyzer

    A shallow embedding of [src/core/findings.py], [src/core/prompts.py] and
    [src/core/analyzer.py], and the properties of the parsing pipeline.

    Conventions of the embedding.
    - A Python [str] is a [string]; the characters below 128 are modelled
      exactly ([lower], [upper], whitespace); a character code of 128 or more
      stands for a non-ASCII character and is taken as caseless and not
      white.
    - A Python [int] is a [Z]; a [float] is kept as the decimal numeral that
      denotes it, since no modelled code path computes with floats.
    - A value that comes out of [json.loads] is a [pyval]; a [dict] is an
      association list with distinct keys in insertion order.
    - A Python call that may raise returns a [result].
    - Logging is not modelled: it has no influence on results. *)

From Stdlib Require Import ZArith Lia Ascii.
From stdpp Require Import base option list strings gmap.

(** ** Python values, exceptions *)

#[warnings="-register-all"]
Inductive pyval :=
| PNone
| PBool (b : bool)
| PInt (n : Z)
| PFloat (numeral : string)
| PStr (s : string)
| PList (l : list pyval)
| PDict (d : list (string * pyval)).

Inductive exn :=
| AttributeError
| TypeError
| JSONDecodeError
| APIError (what : string).

Inductive result (A : Type) :=
| Ok (a : A)
| Raise (e : exn).
Arguments Ok {A} a.
Arguments Raise {A} e.

(** Sequencing: the first exception raised ends the computation. *)
Global Instance result_ret : MRet result := λ A, Ok.

Global Instance result_bind : MBind result := λ A B f r,
  match r with
  | Ok a => f a
  | Raise e => Raise e
  end.

Global Instance result_fmap : FMap result := λ A B f r,
  match r with
  | Ok a => Ok (f a)
  | Raise e => Raise e
  end.

(** ** Characters and strings *)

Definition code (c : ascii) : nat := nat_of_ascii c.

(** The double quote. *)
Definition dquote : ascii := ascii_of_nat 34.

(** [str.isspace] on one character, also the class [\s] of [re]. *)
Definition isspace (c : ascii) : bool :=
  let n := code c in
  (((9 <=? n) && (n <=? 13)) || ((28 <=? n) && (n <=? 32)))%nat.

Definition lower_char (c : ascii) : ascii :=
  let n := code c in
  if ((65 <=? n) && (n <=? 90))%nat then ascii_of_nat (n + 32) else c.

Definition upper_char (c : ascii) : ascii :=
  let n := code c in
  if ((97 <=? n) && (n <=? 122))%nat then ascii_of_nat (n - 32) else c.

Fixpoint map_string (f : ascii -> ascii) (s : string) : string :=
  match s with
  | EmptyString => EmptyString
  | String c s' => String (f c) (map_string f s')
  end.

(** [str.lower] and [str.upper]. *)
Definition lower : string -> string := map_string lower_char.
Definition upper : string -> string := map_string upper_char.

(** ** [findings.py]: the data model *)

Inductive FindingType := SECURITY | BUG | QUALITY | PERFORMANCE | ACCESSIBILITY.

Inductive Severity := CRITICAL | HIGH | MEDIUM | LOW | INFO.

Global Instance FindingType_eq_dec : EqDecision FindingType.
Proof. solve_decision. Defined.

Global Instance Severity_eq_dec : EqDecision Severity.
Proof. solve_decision. Defined.

(** The members in definition order, as iterating the enum class gives them. *)
Definition FindingType_members : list FindingType :=
  [SECURITY; BUG; QUALITY; PERFORMANCE; ACCESSIBILITY].

Definition Severity_members : list Severity :=
  [CRITICAL; HIGH; MEDIUM; LOW; INFO].

Definition FindingType_value (t : FindingType) : string :=
  match t with
  | SECURITY => "security"
  | BUG => "bug"
  | QUALITY => "quality"
  | PERFORMANCE => "performance"
  | ACCESSIBILITY => "accessibility"
  end.

Definition Severity_value (s : Severity) : string :=
  match s with
  | CRITICAL => "critical"
  | HIGH => "high"
  | MEDIUM => "medium"
  | LOW => "low"
  | INFO => "info"
  end.

(** The dataclasses do not validate their fields: whatever value the caller
    passes is stored, so the untyped fields carry a [pyval]. *)
Record Location := {
  file_path : string;
  line : pyval;
  column : pyval;
  end_line : pyval;
  end_column : pyval
}.

Record Finding := {
  type : FindingType;
  severity : Severity;
  message : pyval;
  location : Location;
  remediation : pyval;
  confidence : pyval;
  code_snippet : pyval;
  rule_id : pyval;
  metadata : pyval
}.


(** ** [analyzer.py]: one finding item *)

(** The value bound to [key] in a dict, if any. *)
Fixpoint dict_lookup (d : list (string * pyval)) (key : string)
  : option pyval :=
  match d with
  | [] => None
  | (k, v) :: d' => if decide (k = key) then Some v else dict_lookup d' key
  end.

(** [d.get(key, fallback)] on a dict. *)
Definition dict_get (d : list (string * pyval)) (key : string)
    (fallback : pyval) : pyval :=
  default fallback (dict_lookup d key).

(** [v.get(key, fallback)] on any value: only a dict has the method. *)
Definition py_get (v : pyval) (key : string) (fallback : pyval)
  : result pyval :=
  match v with
  | PDict d => Ok (dict_get d key fallback)
  | _ => Raise AttributeError
  end.

(** [v.lower()] and [v.upper()] on any value: only a str has the methods. *)
Definition py_lower (v : pyval) : result string :=
  match v with
  | PStr s => Ok (lower s)
  | _ => Raise AttributeError
  end.

Definition py_upper (v : pyval) : result string :=
  match v with
  | PStr s => Ok (upper s)
  | _ => Raise AttributeError
  end.

Definition severity_map : gmap string Severity :=
  list_to_map [
    ("critical", CRITICAL);
    ("high", HIGH);
    ("medium", MEDIUM);
    ("low", LOW);
    ("info", INFO)
  ].

Definition type_map : gmap string FindingType :=
  list_to_map [
    ("SECURITY", SECURITY);
    ("BUG", BUG);
    ("QUALITY", QUALITY);
    ("PERFORMANCE", PERFORMANCE);
    ("ACCESSIBILITY", ACCESSIBILITY)
  ].

Definition _parse_finding (finding_data : pyval) (file_path : string)
  : result Finding :=
  severity_raw ← py_get finding_data "severity" (PStr "medium");
  severity_str ← py_lower severity_raw;
  let severity := default MEDIUM (severity_map !! severity_str) in
  type_raw ← py_get finding_data "type" (PStr "QUALITY");
  type_str ← py_upper type_raw;
  let finding_type := default QUALITY (type_map !! type_str) in
  line ← py_get finding_data "line" PNone;
  column ← py_get finding_data "column" PNone;
  end_line ← py_get finding_data "end_line" PNone;
  end_column ← py_get finding_data "end_column" PNone;
  let location :=
    {| file_path := file_path; line := line; column := column;
       end_line := end_line; end_column := end_column |} in
  message ← py_get finding_data "message" (PStr "Unknown issue");
  remediation ← py_get finding_data "remediation" PNone;
  confidence ← py_get finding_data "confidence" (PFloat "0.8");
  code_snippet ← py_get finding_data "code_snippet" PNone;
  rule_id ← py_get finding_data "rule_id" PNone;
  metadata ← py_get finding_data "metadata" (PDict []);
  Ok {| type := finding_type; severity := severity; message := message;
        location := location; remediation := remediation;
        confidence := confidence; code_snippet := code_snippet;
        rule_id := rule_id; metadata := metadata |}.

(** ** The two patterns of [re.search]

    A backtracking matcher for the fragment of [re] that the analyzer uses.
    The order in which alternatives are tried is the one of [re]: a greedy
    operator tries the longer match first, a lazy one the shorter; [search]
    returns the match at the leftmost position that has one. A continuation
    receives the text matched, the text of group 1 if the group took part,
    and the rest of the input. *)

Inductive regex :=
| Chr (c : ascii)                        (* one literal character *)
| Cat (r1 r2 : regex)                    (* r1 r2 *)
| Opt (r : regex)                        (* r? *)
| Star (p : ascii -> bool) (greedy : bool) (* p* or p*? for a character class p *)
| Grp (r : regex).                       (* ( r ), group 1 *)

Record Match := {
  group0 : string;
  group1 : option string
}.

Section Matcher.
Context {R : Type}.

Definition cont := string -> option string -> string -> option R.

Definition or_else (a b : option R) : option R :=
  match a with
  | Some x => Some x
  | None => b
  end.

Fixpoint star (p : ascii -> bool) (greedy : bool) (s : string) (k : cont)
  : option R :=
  match s with
  | String c s' =>
      if p c then
        let more := star p greedy s' (fun t g rest => k (String c t) g rest) in
        if greedy then or_else more (k EmptyString None s)
        else or_else (k EmptyString None s) more
      else k EmptyString None s
  | EmptyString => k EmptyString None s
  end.

Fixpoint rmatch (r : regex) (s : string) (k : cont) : option R :=
  match r with
  | Chr c =>
      match s with
      | String x s' => if decide (x = c) then k (String c EmptyString) None s' else None
      | EmptyString => None
      end
  | Cat r1 r2 =>
      rmatch r1 s (fun t1 g1 s1 =>
        rmatch r2 s1 (fun t2 g2 s2 =>
          k (t1 +:+ t2) (from_option Some g1 g2) s2))
  | Opt r' => or_else (rmatch r' s k) (k EmptyString None s)
  | Star p greedy => star p greedy s k
  | Grp r' => rmatch r' s (fun t _ rest => k t (Some t) rest)
  end.
End Matcher.

Definition match_here (r : regex) (s : string) : option Match :=
  rmatch r s (fun t g _ => Some {| group0 := t; group1 := g |}).

(** [re.search(r, s)]: every start position, from the left. *)
Fixpoint re_search (r : regex) (s : string) : option Match :=
  match match_here r s with
  | Some m => Some m
  | None =>
      match s with
      | String _ s' => re_search r s'
      | EmptyString => None
      end
  end.

(** The literal [c s]: the characters of a non-empty string, in sequence. *)
Fixpoint lit (c : ascii) (s : string) : regex :=
  match s with
  | EmptyString => Chr c
  | String c' s' => Cat (Chr c) (lit c' s')
  end.

(** With [re.DOTALL] the dot matches every character. *)
Definition dot (c : ascii) : bool := true.

Definition backtick : ascii := "`"%char.

Definition fence : regex := lit backtick "``".

(** [```(?:json)?\s*(\{.*?\})\s*```] *)
Definition fence_re : regex :=
  Cat fence
  (Cat (Opt (lit "j" "son"))
  (Cat (Star isspace true)
  (Cat (Grp (Cat (Chr "{") (Cat (Star dot false) (Chr "}"))))
  (Cat (Star isspace true)
       fence)))).

(** [\{.*\}] *)
Definition brace_re : regex :=
  Cat (Chr "{") (Cat (Star dot true) (Chr "}")).

(** Lines 116 to 125 of [_parse_api_response]: the text handed to
    [json.loads]. Group 1 of [fence_re] takes part in every match. *)
Definition extract_json (response : string) : string :=
  match re_search fence_re response with
  | Some json_match => default response (group1 json_match)
  | None =>
      match re_search brace_re response with
      | Some json_match => group0 json_match
      | None => response
      end
  end.

(** ** [json.loads]

    The decoder of the standard library, as a lexer followed by a stack
    parser, both total. It accepts what the library accepts: the JSON
    grammar with the whitespace characters space, tab, line feed and
    carriage return, no control character inside a string, the escapes of
    JSON, and the names [NaN], [Infinity] and [-Infinity]. A repeated key
    keeps its first position and its last value. An escape [\uXXXX] yields
    the UTF-8 bytes of that code unit. *)

Module json.

Inductive token :=
| TLBrace | TRBrace | TLBracket | TRBracket | TColon | TComma
| TValue (v : pyval).

Definition is_digit (c : ascii) : bool :=
  ((48 <=? code c) && (code c <=? 57))%nat.

Definition is_alpha (c : ascii) : bool :=
  (((65 <=? code c) && (code c <=? 90))
   || ((97 <=? code c) && (code c <=? 122)))%nat.

(** The characters of numbers and of literal names. *)
Definition is_word (c : ascii) : bool :=
  is_digit c || is_alpha c
  || bool_decide (c = "+"%char) || bool_decide (c = "-"%char)
  || bool_decide (c = "."%char).

Definition is_ws (c : ascii) : bool :=
  bool_decide (c = " "%char) || bool_decide (code c = 9)
  || bool_decide (code c = 10) || bool_decide (code c = 13).

(** *** Numbers

    An optional minus sign; an integer part, which is 0 or starts with a
    digit from 1 to 9; an optional fraction, a dot and at least one digit;
    an optional exponent, e or E, an optional sign and at least one
    digit. *)

Fixpoint all_digits (s : string) : bool :=
  match s with
  | EmptyString => true
  | String c s' => is_digit c && all_digits s'
  end.

Definition digits1 (s : string) : bool :=
  match s with
  | EmptyString => false
  | _ => all_digits s
  end.

(** The exponent, after [e] or [E]. *)
Definition is_exponent (s : string) : bool :=
  match s with
  | String c s' =>
      if bool_decide (c = "+"%char) || bool_decide (c = "-"%char)
      then digits1 s' else digits1 s
  | EmptyString => false
  end.

(** The fraction digits, after the dot, and what follows them. *)
Fixpoint is_fraction (seen : bool) (s : string) : bool :=
  match s with
  | EmptyString => seen
  | String c s' =>
      if is_digit c then is_fraction true s'
      else if bool_decide (c = "e"%char) || bool_decide (c = "E"%char)
      then seen && is_exponent s'
      else false
  end.

(** What may follow the integer part; [true] in the second component when
    the numeral has a fraction or an exponent (a float). *)
Definition after_int (s : string) : bool * bool :=
  match s with
  | EmptyString => (true, false)
  | String c s' =>
      if bool_decide (c = "."%char) then (is_fraction false s', true)
      else if bool_decide (c = "e"%char) || bool_decide (c = "E"%char)
      then (is_exponent s', true)
      else (false, false)
  end.

(** The leading digits of [s]: their value and the rest. *)
Fixpoint int_part (acc : Z) (s : string) : Z * string :=
  match s with
  | String c s' =>
      if is_digit c
      then int_part (10 * acc + Z.of_nat (code c - 48)) s'
      else (acc, s)
  | EmptyString => (acc, s)
  end.

Definition unsigned_number (neg : bool) (w s : string) : option pyval :=
  match s with
  | String c s' =>
      if negb (is_digit c) then None
      else
        let '(n, rest) :=
          if bool_decide (c = "0"%char) then (0%Z, s') else int_part 0 s in
        match after_int rest with
        | (true, true) => Some (PFloat w)
        | (true, false) => Some (PInt (if neg then - n else n))
        | (false, _) => None
        end
  | EmptyString => None
  end.

Definition number (w : string) : option pyval :=
  match w with
  | String c s' =>
      if bool_decide (c = "-"%char) then unsigned_number true w s'
      else unsigned_number false w w
  | EmptyString => None
  end.

(** A maximal run of word characters is a literal name or a number. *)
Definition word_value (w : string) : option pyval :=
  if decide (w = "null") then Some PNone
  else if decide (w = "true") then Some (PBool true)
  else if decide (w = "false") then Some (PBool false)
  else if decide (w = "NaN") then Some (PFloat w)
  else if decide (w = "Infinity") then Some (PFloat w)
  else if decide (w = "-Infinity") then Some (PFloat w)
  else number w.

(** *** Strings *)

Definition hex_digit (c : ascii) : option nat :=
  let n := code c in
  if ((48 <=? n) && (n <=? 57))%nat then Some (n - 48)
  else if ((65 <=? n) && (n <=? 70))%nat then Some (n - 55)
  else if ((97 <=? n) && (n <=? 102))%nat then Some (n - 87)
  else None.

Definition utf8 (n : nat) : string :=
  if (n <? 128)%nat then String (ascii_of_nat n) EmptyString
  else if (n <? 2048)%nat then
    String (ascii_of_nat (192 + n / 64))
      (String (ascii_of_nat (128 + n mod 64)) EmptyString)
  else
    String (ascii_of_nat (224 + n / 4096))
      (String (ascii_of_nat (128 + (n / 64) mod 64))
        (String (ascii_of_nat (128 + n mod 64)) EmptyString)).

Definition escape (c : ascii) : option ascii :=
  if decide (c = dquote) then Some dquote
  else if decide (c = "\"%char) then Some "\"%char
  else if decide (c = "/"%char) then Some "/"%char
  else if decide (c = "b"%char) then Some (ascii_of_nat 8)
  else if decide (c = "f"%char) then Some (ascii_of_nat 12)
  else if decide (c = "n"%char) then Some (ascii_of_nat 10)
  else if decide (c = "r"%char) then Some (ascii_of_nat 13)
  else if decide (c = "t"%char) then Some (ascii_of_nat 9)
  else None.

(** *** The lexer *)

Inductive mode :=
| Between                                  (* between two tokens *)
| InWord (w : string)                      (* in a number or a name *)
| InString (acc : string)                  (* in a string *)
| InEscape (acc : string)                  (* after a backslash *)
| InUnicode (acc : string) (n : nat) (todo : nat). (* in the digits of \u *)

Definition snoc (s : string) (c : ascii) : string := s +:+ String c EmptyString.

Definition punctuation (c : ascii) : option token :=
  if decide (c = "{"%char) then Some TLBrace
  else if decide (c = "}"%char) then Some TRBrace
  else if decide (c = "["%char) then Some TLBracket
  else if decide (c = "]"%char) then Some TRBracket
  else if decide (c = ":"%char) then Some TColon
  else if decide (c = ","%char) then Some TComma
  else None.

(** A character met between tokens; [k] reads the rest in a given mode. *)
Definition between (c : ascii) (k : mode -> option (list token))
  : option (list token) :=
  if is_ws c then k Between
  else match punctuation c with
  | Some t => cons t <$> k Between
  | None =>
      if decide (c = dquote) then k (InString EmptyString)
      else if is_word c then k (InWord (String c EmptyString))
      else None
  end.

Fixpoint lex (m : mode) (s : string) : option (list token) :=
  match s with
  | EmptyString =>
      match m with
      | Between => Some []
      | InWord w => v ← word_value w; Some [TValue v]
      | _ => None
      end
  | String c s' =>
      match m with
      | Between => between c (fun m' => lex m' s')
      | InWord w =>
          if is_word c then lex (InWord (snoc w c)) s'
          else
            v ← word_value w;
            cons (TValue v) <$> between c (fun m' => lex m' s')
      | InString acc =>
          if decide (c = dquote)
          then cons (TValue (PStr acc)) <$> lex Between s'
          else if decide (c = "\"%char) then lex (InEscape acc) s'
          else if (code c <? 32)%nat then None
          else lex (InString (snoc acc c)) s'
      | InEscape acc =>
          if decide (c = "u"%char) then lex (InUnicode acc 0 4) s'
          else e ← escape c; lex (InString (snoc acc e)) s'
      | InUnicode acc n todo =>
          d ← hex_digit c;
          let n' := (16 * n + d)%nat in
          match todo with
          | S (S todo') => lex (InUnicode acc n' (S todo')) s'
          | _ => lex (InString (acc +:+ utf8 n')) s'
          end
      end
  end.

(** *** The parser *)

(** [d[key] = v] *)
Fixpoint dict_set (d : list (string * pyval)) (key : string) (v : pyval)
  : list (string * pyval) :=
  match d with
  | [] => [(key, v)]
  | (k, x) :: d' =>
      if decide (k = key) then (k, v) :: d' else (k, x) :: dict_set d' key v
  end.

(** An enclosing container under construction. *)
Inductive frame :=
| FList (items : list pyval)
| FDict (d : list (string * pyval)) (key : string).

Inductive state :=
| SValue (may_close : bool) (st : list frame)
    (* a value comes next, or the closing bracket of an empty array *)
| SKey (may_close : bool) (d : list (string * pyval)) (st : list frame)
    (* a key comes next, or the closing brace of an empty object *)
| SColon (d : list (string * pyval)) (key : string) (st : list frame)
| SAfter (v : pyval) (st : list frame).
    (* the value v is complete, inside the containers st *)

Definition step (s : state) (t : token) : option state :=
  match s, t with
  | SValue _ st, TValue v => Some (SAfter v st)
  | SValue _ st, TLBracket => Some (SValue true (FList [] :: st))
  | SValue _ st, TLBrace => Some (SKey true [] st)
  | SValue true (FList items :: st), TRBracket => Some (SAfter (PList items) st)
  | SKey _ d st, TValue (PStr key) => Some (SColon d key st)
  | SKey true d st, TRBrace => Some (SAfter (PDict d) st)
  | SColon d key st, TColon => Some (SValue false (FDict d key :: st))
  | SAfter v (FList items :: st), TComma =>
      Some (SValue false (FList (items ++ [v]) :: st))
  | SAfter v (FList items :: st), TRBracket =>
      Some (SAfter (PList (items ++ [v])) st)
  | SAfter v (FDict d key :: st), TComma =>
      Some (SKey false (dict_set d key v) st)
  | SAfter v (FDict d key :: st), TRBrace =>
      Some (SAfter (PDict (dict_set d key v)) st)
  | _, _ => None
  end.

Fixpoint run (s : state) (ts : list token) : option state :=
  match ts with
  | [] => Some s
  | t :: ts' => s' ← step s t; run s' ts'
  end.

Definition parse (ts : list token) : option pyval :=
  s ← run (SValue false []) ts;
  match s with
  | SAfter v [] => Some v
  | _ => None
  end.

Definition loads (s : string) : result pyval :=
  match lex Between s ≫= parse with
  | Some v => Ok v
  | None => Raise JSONDecodeError
  end.

End json.

(** ** [analyzer.py]: a whole response *)

(** [try: body except cls: handler]; [cls] selects the exceptions caught. *)
Definition try_except {A} (body : result A) (cls : exn -> bool)
    (handler : exn -> result A) : result A :=
  match body with
  | Ok a => Ok a
  | Raise e => if cls e then handler e else Raise e
  end.

(** [except Exception] catches every exception of the model. *)
Definition Exception (e : exn) : bool := true.

Definition is_JSONDecodeError (e : exn) : bool :=
  match e with
  | JSONDecodeError => true
  | _ => false
  end.

Fixpoint chars (s : string) : list pyval :=
  match s with
  | EmptyString => []
  | String c s' => PStr (String c EmptyString) :: chars s'
  end.

(** What [for x in v] iterates over: the items of a list, the characters of
    a str, the keys of a dict; any other value is not iterable. *)
Definition py_iter (v : pyval) : result (list pyval) :=
  match v with
  | PList l => Ok l
  | PStr s => Ok (chars s)
  | PDict d => Ok (PStr ∘ fst <$> d)
  | PNone | PBool _ | PInt _ | PFloat _ => Raise TypeError
  end.

(** The loop of lines 140 to 145, from the list [findings] built so far. *)
Fixpoint parse_each (items : list pyval) (file_path : string)
    (findings : list Finding) : list Finding :=
  match items with
  | [] => findings
  | finding_data :: items' =>
      match _parse_finding finding_data file_path with
      | Ok finding => parse_each items' file_path (findings ++ [finding])
      | Raise e => parse_each items' file_path findings
      end
  end.

(** No finding has been appended when [json.loads] raises, so the handler
    of [JSONDecodeError] finds the list empty. *)
Definition _parse_api_response (response file_path : string)
  : result (list Finding) :=
  let findings := [] in
  try_except
    (let response := extract_json response in
     data ← json.loads response;
     match data with
     | PDict d =>
         let findings_data := dict_get d "findings" (PList []) in
         items ← py_iter findings_data;
         Ok (parse_each items file_path findings)
     | PList _ =>
         let findings_data := data in
         items ← py_iter findings_data;
         Ok (parse_each items file_path findings)
     | _ => Ok findings
     end)
    is_JSONDecodeError
    (fun e => Ok findings).

(** ** [analyzer.py]: the call with retries

    The client and the clock are the outside world. The client is a script:
    its answer to the n-th request. What the analyzer does to the world is
    the trace of its requests and sleeps. *)

Record Response := {
  content : list string   (* the text of each content block *)
}.

Inductive event :=
| Request (prompt : string)
| Sleep (seconds : Z).

Record CodeAnalyzer := {
  client : nat -> string -> result Response;
  model : string;
  timeout : Z;
  max_retries : Z
}.

Definition is_request (e : event) : bool :=
  match e with
  | Request _ => true
  | Sleep _ => false
  end.

Definition requests (trace : list event) : nat :=
  length (filter is_request trace).

(** [str.strip]: the leading and trailing whitespace removed. *)
Fixpoint lstrip (s : string) : string :=
  match s with
  | String c s' => if isspace c then lstrip s' else s
  | EmptyString => EmptyString
  end.

Fixpoint rstrip (s : string) : string :=
  match s with
  | String c s' =>
      match rstrip s' with
      | EmptyString => if isspace c then EmptyString else String c EmptyString
      | r => String c r
      end
  | EmptyString => EmptyString
  end.

Definition strip (s : string) : string := rstrip (lstrip s).

(** Truth of a str: it is not empty. *)
Definition truthy (s : string) : bool :=
  match s with
  | EmptyString => false
  | _ => true
  end.

(** [range(n)] *)
Definition range (n : Z) : list Z := Z.of_nat <$> seq 0 (Z.to_nat n).

(** ** [prompts.py]

    The four templates. In each, the text that follows the last placeholder
    is a constant of its own; [dq] is the double quote character. *)

Definition dq : string := String dquote EmptyString.

(** The text of [get_security_prompt] after the code. *)
Definition security_instructions : string :=
  "
```

Please identify:
1. SQL injection vulnerabilities
2. Cross-site scripting (XSS) vulnerabilities
3. Authentication and authorization issues
4. Insecure data storage or transmission
5. Hardcoded secrets, API keys, or credentials
6. Insecure deserialization
7. Server-side request forgery (SSRF)
8. Path traversal vulnerabilities
9. Command injection
10. Insecure random number generation

For each vulnerability found, provide:
- Type: The vulnerability type (e.g., SQL_INJECTION, XSS)
- Severity: critical, high, medium, or low
- Location: Line number(s) where the issue occurs
- Message: Clear description of the vulnerability
- Remediation: How to fix the issue
- Confidence: Your confidence level (0.0 to 1.0)

Format your response as JSON with this structure:
{
  " +:+ dq +:+ "findings" +:+ dq +:+ ": [
    {
      " +:+ dq +:+ "type" +:+ dq +:+ ": " +:+ dq +:+ "SECURITY" +:+ dq +:+ ",
      " +:+ dq +:+ "severity" +:+ dq +:+ ": " +:+ dq +:+ "critical" +:+ dq +:+ ",
      " +:+ dq +:+ "line" +:+ dq +:+ ": 42,
      " +:+ dq +:+ "message" +:+ dq +:+ ": " +:+ dq +:+ "SQL injection vulnerability: user input directly concatenated into SQL query" +:+ dq +:+ ",
      " +:+ dq +:+ "remediation" +:+ dq +:+ ": " +:+ dq +:+ "Use parameterized queries or prepared statements" +:+ dq +:+ ",
      " +:+ dq +:+ "confidence" +:+ dq +:+ ": 0.95,
      " +:+ dq +:+ "code_snippet" +:+ dq +:+ ": " +:+ dq +:+ "query = f'SELECT * FROM users WHERE id = {user_input}'" +:+ dq +:+ "  # Example: SQL injection pattern (for demonstration)
    }
  ]
}

If no vulnerabilities are found, return: {" +:+ dq +:+ "findings" +:+ dq +:+ ": []}
".

Definition get_security_prompt (file_name code language : string) : string :=
  "Analyze the following " +:+ language +:+ " code for security vulnerabilities.

File: " +:+ file_name +:+ "

Code:
```" +:+ language +:+ "
" +:+ code +:+ security_instructions.

(** The text of [get_bug_detection_prompt] after the code. *)
Definition bug_detection_instructions : string :=
  "
```

Please identify:
1. Null pointer/null reference exceptions
2. Array/string index out of bounds
3. Division by zero
4. Infinite loops or recursion
5. Resource leaks (unclosed files, connections)
6. Race conditions
7. Off-by-one errors
8. Type mismatches
9. Uninitialized variables
10. Logic errors

For each bug found, provide:
- Type: The bug type (e.g., NULL_POINTER, RESOURCE_LEAK)
- Severity: critical, high, medium, or low
- Location: Line number(s) where the bug occurs
- Message: Clear description of the bug
- Remediation: How to fix the bug
- Confidence: Your confidence level (0.0 to 1.0)

Format your response as JSON with this structure:
{
  " +:+ dq +:+ "findings" +:+ dq +:+ ": [
    {
      " +:+ dq +:+ "type" +:+ dq +:+ ": " +:+ dq +:+ "BUG" +:+ dq +:+ ",
      " +:+ dq +:+ "severity" +:+ dq +:+ ": " +:+ dq +:+ "high" +:+ dq +:+ ",
      " +:+ dq +:+ "line" +:+ dq +:+ ": 15,
      " +:+ dq +:+ "message" +:+ dq +:+ ": " +:+ dq +:+ "Potential null pointer: variable 'user' may be None before access" +:+ dq +:+ ",
      " +:+ dq +:+ "remediation" +:+ dq +:+ ": " +:+ dq +:+ "Add null check before accessing user properties" +:+ dq +:+ ",
      " +:+ dq +:+ "confidence" +:+ dq +:+ ": 0.85,
      " +:+ dq +:+ "code_snippet" +:+ dq +:+ ": " +:+ dq +:+ "name = user.name" +:+ dq +:+ "
    }
  ]
}

If no bugs are found, return: {" +:+ dq +:+ "findings" +:+ dq +:+ ": []}
".

Definition get_bug_detection_prompt (file_name code language : string) : string :=
  "Analyze the following " +:+ language +:+ " code for bugs and logic errors.

File: " +:+ file_name +:+ "

Code:
```" +:+ language +:+ "
" +:+ code +:+ bug_detection_instructions.

(** The text of [get_quality_prompt] after the code. *)
Definition quality_instructions : string :=
  "
```

Please identify:
1. Code smells (long methods, large classes)
2. Anti-patterns
3. Best practice violations
4. Duplicate code
5. Poor naming conventions
6. Missing error handling
7. Inefficient algorithms
8. Missing documentation
9. Complex conditional logic
10. Tight coupling

For each issue found, provide:
- Type: The issue type (e.g., CODE_SMELL, ANTI_PATTERN)
- Severity: critical, high, medium, low, or info
- Location: Line number(s) where the issue occurs
- Message: Clear description of the issue
- Remediation: How to improve the code
- Confidence: Your confidence level (0.0 to 1.0)

Format your response as JSON with this structure:
{
  " +:+ dq +:+ "findings" +:+ dq +:+ ": [
    {
      " +:+ dq +:+ "type" +:+ dq +:+ ": " +:+ dq +:+ "QUALITY" +:+ dq +:+ ",
      " +:+ dq +:+ "severity" +:+ dq +:+ ": " +:+ dq +:+ "medium" +:+ dq +:+ ",
      " +:+ dq +:+ "line" +:+ dq +:+ ": 50,
      " +:+ dq +:+ "message" +:+ dq +:+ ": " +:+ dq +:+ "Method is too long (150 lines), consider breaking into smaller functions" +:+ dq +:+ ",
      " +:+ dq +:+ "remediation" +:+ dq +:+ ": " +:+ dq +:+ "Extract logical sections into separate methods" +:+ dq +:+ ",
      " +:+ dq +:+ "confidence" +:+ dq +:+ ": 0.90,
      " +:+ dq +:+ "code_snippet" +:+ dq +:+ ": " +:+ dq +:+ "def process_data(): ..." +:+ dq +:+ "
    }
  ]
}

If no issues are found, return: {" +:+ dq +:+ "findings" +:+ dq +:+ ": []}
".

Definition get_quality_prompt (file_name code language : string) : string :=
  "Analyze the following " +:+ language +:+ " code for code quality issues.

File: " +:+ file_name +:+ "

Code:
```" +:+ language +:+ "
" +:+ code +:+ quality_instructions.

(** The text of [get_comprehensive_prompt] after the code. *)
Definition comprehensive_instructions : string :=
  "
```

Analyze for:
1. Security vulnerabilities (SQL injection, XSS, authentication issues, etc.)
2. Bugs and logic errors (null pointers, resource leaks, race conditions, etc.)
3. Code quality issues (code smells, anti-patterns, best practices, etc.)

For each finding, provide:
- Type: SECURITY, BUG, or QUALITY
- Severity: critical, high, medium, low, or info
- Location: Line number(s) where the issue occurs
- Message: Clear description of the issue
- Remediation: How to fix or improve
- Confidence: Your confidence level (0.0 to 1.0)

Format your response as JSON with this structure:
{
  " +:+ dq +:+ "findings" +:+ dq +:+ ": [
    {
      " +:+ dq +:+ "type" +:+ dq +:+ ": " +:+ dq +:+ "SECURITY" +:+ dq +:+ ",
      " +:+ dq +:+ "severity" +:+ dq +:+ ": " +:+ dq +:+ "critical" +:+ dq +:+ ",
      " +:+ dq +:+ "line" +:+ dq +:+ ": 42,
      " +:+ dq +:+ "message" +:+ dq +:+ ": " +:+ dq +:+ "SQL injection vulnerability" +:+ dq +:+ ",
      " +:+ dq +:+ "remediation" +:+ dq +:+ ": " +:+ dq +:+ "Use parameterized queries" +:+ dq +:+ ",
      " +:+ dq +:+ "confidence" +:+ dq +:+ ": 0.95,
      " +:+ dq +:+ "code_snippet" +:+ dq +:+ ": " +:+ dq +:+ "query = f'SELECT * FROM users WHERE id = {user_input}'" +:+ dq +:+ "  # Example: SQL injection pattern (for demonstration)
    },
    {
      " +:+ dq +:+ "type" +:+ dq +:+ ": " +:+ dq +:+ "BUG" +:+ dq +:+ ",
      " +:+ dq +:+ "severity" +:+ dq +:+ ": " +:+ dq +:+ "high" +:+ dq +:+ ",
      " +:+ dq +:+ "line" +:+ dq +:+ ": 15,
      " +:+ dq +:+ "message" +:+ dq +:+ ": " +:+ dq +:+ "Potential null pointer" +:+ dq +:+ ",
      " +:+ dq +:+ "remediation" +:+ dq +:+ ": " +:+ dq +:+ "Add null check" +:+ dq +:+ ",
      " +:+ dq +:+ "confidence" +:+ dq +:+ ": 0.85,
      " +:+ dq +:+ "code_snippet" +:+ dq +:+ ": " +:+ dq +:+ "name = user.name" +:+ dq +:+ "
    }
  ]
}

If no findings are found, return: {" +:+ dq +:+ "findings" +:+ dq +:+ ": []}
".

Definition get_comprehensive_prompt (file_name code language : string) : string :=
  "Perform a comprehensive analysis of the following " +:+ language +:+ " code.

File: " +:+ file_name +:+ "

Code:
```" +:+ language +:+ "
" +:+ code +:+ comprehensive_instructions.

Definition prompts : gmap string (string -> string -> string -> string) :=
  list_to_map [
    ("security", get_security_prompt);
    ("bugs", get_bug_detection_prompt);
    ("quality", get_quality_prompt);
    ("comprehensive", get_comprehensive_prompt)
  ].

Definition get_prompt (analysis_type file_name code language : string)
  : string :=
  let prompt_func :=
    default get_comprehensive_prompt (prompts !! lower analysis_type) in
  prompt_func file_name code language.

(** ** [analyzer.py]: [analyze_code] *)

(** The body of the [try] of one attempt: the request, then the parsing of
    the first content block. An empty content gives no finding. *)
Definition attempt_once (self : CodeAnalyzer) (prompt file_name : string)
    (trace : list event) : result (list Finding) * list event :=
  (response ← client self (requests trace) prompt;
   match content response with
   | response_text :: _ => _parse_api_response response_text file_name
   | [] => Ok []
   end,
   trace ++ [Request prompt]).

(** The loop [for attempt in range(self.max_retries)], on what is left of
    the range. The [except Exception] clause catches whatever the attempt
    raised. *)
Fixpoint attempts (self : CodeAnalyzer) (prompt file_name : string)
    (todo : list Z) (trace : list event) : list Finding * list event :=
  match todo with
  | [] => ([], trace)
  | attempt :: todo' =>
      let '(r, trace) := attempt_once self prompt file_name trace in
      match r with
      | Ok findings => (findings, trace)
      | Raise e =>
          if (attempt <? max_retries self - 1)%Z
          then attempts self prompt file_name todo'
                 (trace ++ [Sleep (2 ^ attempt)])
          else ([], trace)
      end
  end.

Definition analyze_code (self : CodeAnalyzer)
    (code language file_name analysis_type : string) (trace : list event)
  : list Finding * list event :=
  if negb (truthy code) || negb (truthy (strip code)) then ([], trace)
  else
    let prompt := get_prompt analysis_type file_name code language in
    attempts self prompt file_name (range (max_retries self)) trace.

(** ** [findings.py]: [AnalysisResult] *)

Module AnalysisResult.

Record t := {
  findings : list Finding;
  files_analyzed : Z;
  total_lines : Z;
  analysis_time_seconds : string;
  timestamp : string;
  metadata : pyval
}.

Record Summary := {
  total_findings : nat;
  findings_by_severity : gmap string nat;
  findings_by_type : gmap string nat;
  summary_files_analyzed : Z;
  summary_total_lines : Z;
  summary_analysis_time_seconds : string;
  summary_timestamp : string
}.

Definition get_findings_by_severity (self : t) (s : Severity) : list Finding :=
  filter (fun f => severity f = s) (findings self).

Definition get_findings_by_type (self : t) (finding_type : FindingType)
  : list Finding :=
  filter (fun f => type f = finding_type) (findings self).

Definition get_summary (self : t) : Summary :=
  let findings_by_severity :=
    foldl (fun d s =>
             <[Severity_value s := length (get_findings_by_severity self s)]> d)
          ∅ Severity_members in
  let findings_by_type :=
    foldl (fun d finding_type =>
             <[FindingType_value finding_type :=
                 length (get_findings_by_type self finding_type)]> d)
          ∅ FindingType_members in
  {| total_findings := length (findings self);
     findings_by_severity := findings_by_severity;
     findings_by_type := findings_by_type;
     summary_files_analyzed := files_analyzed self;
     summary_total_lines := total_lines self;
     summary_analysis_time_seconds := analysis_time_seconds self;
     summary_timestamp := timestamp self |}.

(** The sum of the counts of a breakdown. *)
Definition total (breakdown : gmap string nat) : nat :=
  map_fold (fun _ n acc => n + acc) 0 breakdown.

End AnalysisResult.

(** * The vocabulary of the properties

    Definitions that the statements below use: the specification's wording
    of the mappings, the shapes of texts and traces, and the texts of the
    examples. *)

(** ** Finding items *)

(** The finding that [_parse_finding] builds from a dict [d], given the
    lowered severity string and the uppered type string. *)
Definition finding_of (d : list (string * pyval)) (file_path : string)
    (severity_str type_str : string) : Finding :=
  {| type := default QUALITY (type_map !! type_str);
     severity := default MEDIUM (severity_map !! severity_str);
     message := dict_get d "message" (PStr "Unknown issue");
     location :=
       {| file_path := file_path;
          line := dict_get d "line" PNone;
          column := dict_get d "column" PNone;
          end_line := dict_get d "end_line" PNone;
          end_column := dict_get d "end_column" PNone |};
     remediation := dict_get d "remediation" PNone;
     confidence := dict_get d "confidence" (PFloat "0.8");
     code_snippet := dict_get d "code_snippet" PNone;
     rule_id := dict_get d "rule_id" PNone;
     metadata := dict_get d "metadata" (PDict []) |}.



(** A finding item is well formed when the mapping yields a finding, and
    malformed when the mapping raises. *)
Definition maps_to (file_path : string) (item : pyval) (f : Finding) : Prop :=
  _parse_finding item file_path = Ok f.

Definition malformed (file_path : string) (item : pyval) : Prop :=
  exists e, _parse_finding item file_path = Raise e.

(** The findings of the items whose mapping does not raise. *)
Definition mapped (file_path : string) (items : list pyval) : list Finding :=
  omap (fun item =>
          match _parse_finding item file_path with
          | Ok f => Some f
          | Raise _ => None
          end) items.

(** The findings array of a decoded response: the findings field of an
    object, or a bare array. *)
Inductive findings_array : pyval -> list pyval -> Prop :=
| findings_field d items :
    dict_lookup d "findings" = Some (PList items) ->
    findings_array (PDict d) items
| findings_bare items :
    findings_array (PList items) items.

(** ** Texts *)

Definition newline : string := String (ascii_of_nat 10) EmptyString.

(** Every character of the string is whitespace; so is the empty string. *)
Fixpoint all_space (s : string) : bool :=
  match s with
  | EmptyString => true
  | String c s' => isspace c && all_space s'
  end.

(** [s] has no occurrence of the character [c]. *)
Fixpoint no_char (c : ascii) (s : string) : bool :=
  match s with
  | EmptyString => true
  | String x s' => negb (bool_decide (x = c)) && no_char c s'
  end.

(** [s] starts with a fence, three backticks. *)
Definition starts_fence (s : string) : bool :=
  match s with
  | String a (String b (String c _)) =>
      bool_decide (a = backtick) && bool_decide (b = backtick)
      && bool_decide (c = backtick)
  | _ => false
  end.

(** [s] has a fence somewhere. *)
Fixpoint contains_fence (s : string) : bool :=
  starts_fence s
  || match s with
     | String _ s' => contains_fence s'
     | EmptyString => false
     end.

(** [s] without the prefix [p], when it starts with [p]. *)
Fixpoint strip_prefix (p s : string) : option string :=
  match p, s with
  | EmptyString, _ => Some s
  | String a p', String b s' =>
      if decide (a = b) then strip_prefix p' s' else None
  | String _ _, EmptyString => None
  end.

(** What precedes and what follows the first occurrence of [needle]. *)
Fixpoint split_at (needle hay : string) : option (string * string) :=
  match strip_prefix needle hay with
  | Some rest => Some (EmptyString, rest)
  | None =>
      match hay with
      | String c hay' =>
          '(a, b) ← split_at needle hay'; Some (String c a, b)
      | EmptyString => None
      end
  end.



(** ** Prompts *)

(** The code between a fence tagged with the language and a closing fence. *)
Definition fenced_code (language code : string) : string :=
  "```" +:+ language +:+ newline +:+ code +:+ newline +:+ "```".

(** The instruction to answer with one JSON object that has a findings
    array. *)
Definition json_instruction : string :=
  "Format your response as JSON with this structure:" +:+ newline +:+
  "{" +:+ newline +:+ "  " +:+ dq +:+ "findings" +:+ dq +:+ ": [".

(** A text that closes the fence and later gives the instruction. *)
Definition closes_and_instructs (s : string) : Prop :=
  exists mid tail,
    s = newline +:+ "```" +:+ mid +:+ json_instruction +:+ tail.

(** A prompt that embeds the code in a fence tagged with the language, and
    after it gives the instruction. *)
Definition embeds (prompt language code : string) : Prop :=
  exists pre mid tail,
    prompt = pre +:+ fenced_code language code +:+ mid +:+ json_instruction
             +:+ tail.

(** ** Traces *)

(** A client whose every request fails. *)
Definition failing_client (retries : Z) : CodeAnalyzer :=
  {| client := fun _ _ => Raise (APIError "connection reset");
     model := "claude-3-haiku-20240307";
     timeout := 30;
     max_retries := retries |}.

(** A client that answers every request with the same text. *)
Definition constant_client (text : string) : CodeAnalyzer :=
  {| client := fun _ _ => Ok {| content := [text] |};
     model := "claude-3-haiku-20240307";
     timeout := 30;
     max_retries := 3 |}.

(** The delays of the sleeps of a trace, in order. *)
Definition sleeps (trace : list event) : list Z :=
  omap (fun e => match e with Sleep d => Some d | Request _ => None end) trace.

(** What [m] failed attempts numbered from [a] add to the trace, the last
    of them being the last of the range. *)
Fixpoint failed_attempts (prompt : string) (a m : nat) : list event :=
  match m with
  | 0 => []
  | 1 => [Request prompt]
  | S m' =>
      Request prompt :: Sleep (2 ^ Z.of_nat a) :: failed_attempts prompt (S a) m'
  end.

(** ** The texts of the examples *)

(** JSON texts in examples are written with an apostrophe where the text
    has a double quote. *)
Definition json_text (s : string) : string :=
  map_string (fun c => if decide (c = "'"%char) then dquote else c) s.

(** A findings array whose item 2 of 3 has a nested object as severity. *)
Definition three_items : string :=
  json_text "{'findings': [
    {'type': 'SECURITY', 'severity': 'critical', 'line': 10, 'message': 'first'},
    {'type': 'BUG', 'severity': {'level': 'high'}, 'message': 'second'},
    {'type': 'quality', 'severity': 'Low', 'message': 'third'}]}".



(** * Further embedded code *)

(** ** [findings.py]: [to_dict] *)

Definition Location_to_dict (self : Location) : pyval :=
  PDict [
    ("file_path", PStr (file_path self));
    ("line", line self);
    ("column", column self);
    ("end_line", end_line self);
    ("end_column", end_column self)
  ].

Definition Finding_to_dict (self : Finding) : pyval :=
  PDict [
    ("type", PStr (FindingType_value (type self)));
    ("severity", PStr (Severity_value (severity self)));
    ("message", message self);
    ("location", Location_to_dict (location self));
    ("remediation", remediation self);
    ("confidence", confidence self);
    ("code_snippet", code_snippet self);
    ("rule_id", rule_id self);
    ("metadata", metadata self)
  ].

(** ** [reporters/base.py]: [BaseReporter] *)

Global Instance Severity_countable : Countable Severity.
Proof.
  refine (inj_countable'
            (fun s => match s with
                      | CRITICAL => 0 | HIGH => 1 | MEDIUM => 2
                      | LOW => 3 | INFO => 4
                      end)
            (fun n => match n with
                      | 0 => CRITICAL | 1 => HIGH | 2 => MEDIUM
                      | 3 => LOW | _ => INFO
                      end) _).
  now intros [].
Defined.

Module BaseReporter.

Record t := {
  min_severity : option Severity
}.

Definition severity_order : gmap Severity Z :=
  list_to_map [
    (CRITICAL, 0%Z);
    (HIGH, 1%Z);
    (MEDIUM, 2%Z);
    (LOW, 3%Z);
    (INFO, 4%Z)
  ].

Definition filter_findings (self : t) (result : AnalysisResult.t)
  : AnalysisResult.t :=
  match min_severity self with
  | None => result
  | Some min_severity =>
      let min_level := default 4%Z (severity_order !! min_severity) in
      let filtered :=
        filter (fun f =>
                  (default 4 (severity_order !! severity f) <= min_level)%Z)
               (AnalysisResult.findings result) in
      {| AnalysisResult.findings := filtered;
         AnalysisResult.files_analyzed := AnalysisResult.files_analyzed result;
         AnalysisResult.total_lines := AnalysisResult.total_lines result;
         AnalysisResult.analysis_time_seconds :=
           AnalysisResult.analysis_time_seconds result;
         AnalysisResult.timestamp := AnalysisResult.timestamp result;
         AnalysisResult.metadata := AnalysisResult.metadata result |}
  end.

End BaseReporter.

(** ** [cli/main.py]: the severity option of [analyze]

    Lines 67 to 75: the reporter's minimum severity, from the value of the
    option [--severity], [None] when the option is not given. *)
Definition severity_enum (severity : option string) : option Severity :=
  match severity with
  | Some severity =>
      if truthy severity then
        let severity_map : gmap string Severity :=
          list_to_map [
            ("critical", CRITICAL);
            ("high", HIGH);
            ("medium", MEDIUM);
            ("low", LOW)
          ] in
        severity_map !! lower severity
      else None
  | None => None
  end.

(** ** [api/routes.py]: the statistics of [analyze_code]

    Lines 79 to 85. *)
Definition findings_by_severity (findings : list Finding) : gmap string nat :=
  list_to_map [
    ("critical",
     length (filter (fun f => Severity_value (severity f) = "critical") findings));
    ("high",
     length (filter (fun f => Severity_value (severity f) = "high") findings));
    ("medium",
     length (filter (fun f => Severity_value (severity f) = "medium") findings));
    ("low",
     length (filter (fun f => Severity_value (severity f) = "low") findings));
    ("info",
     length (filter (fun f => Severity_value (severity f) = "info") findings))
  ].

(** ** [analyzer.py]: [analyze_directory]

    The parser is the one passed, or the [CodeParser] made when none is
    passed; its two methods read the file system, which is the outside
    world, so the parser is a pair of scripts. A file data is the dict that
    [analyze_file] returns, with the keys that [analyze_directory] reads;
    [None] stands for a falsy value. The clock is the outside world too:
    the elapsed time and the time of the construction of the result are
    given. *)

Module FileData.

Record t := {
  path : string;
  language : string;
  content : string;
  line_count : Z
}.

End FileData.

Record CodeParser := {
  get_files_to_analyze : string -> result (list string);
  analyze_file : string -> result (option FileData.t)
}.

(** The loop of lines 250 to 273, on what is left of the files. The
    [except Exception] clause logs and goes on with the next file. *)
Fixpoint analyze_files (self : CodeAnalyzer) (parser : CodeParser)
    (analysis_type : string) (files : list string)
    (all_findings : list Finding) (files_analyzed total_lines : Z)
    (trace : list event) : (list Finding * Z * Z) * list event :=
  match files with
  | [] => ((all_findings, files_analyzed, total_lines), trace)
  | file_path :: files' =>
      match analyze_file parser file_path with
      | Ok (Some file_data) =>
          let '(findings, trace) :=
            analyze_code self (FileData.content file_data)
              (FileData.language file_data) (FileData.path file_data)
              analysis_type trace in
          analyze_files self parser analysis_type files'
            (all_findings ++ findings) (files_analyzed + 1)
            (total_lines + FileData.line_count file_data) trace
      | Ok None =>
          analyze_files self parser analysis_type files'
            all_findings files_analyzed total_lines trace
      | Raise e =>
          analyze_files self parser analysis_type files'
            all_findings files_analyzed total_lines trace
      end
  end.

Definition analyze_directory (self : CodeAnalyzer)
    (directory analysis_type : string) (parser : CodeParser)
    (analysis_time timestamp : string) (trace : list event)
  : result AnalysisResult.t * list event :=
  match get_files_to_analyze parser directory with
  | Raise e => (Raise e, trace)
  | Ok files =>
      let '((all_findings, files_analyzed, total_lines), trace) :=
        analyze_files self parser analysis_type files [] 0 0 trace in
      (Ok {| AnalysisResult.findings := all_findings;
             AnalysisResult.files_analyzed := files_analyzed;
             AnalysisResult.total_lines := total_lines;
             AnalysisResult.analysis_time_seconds := analysis_time;
             AnalysisResult.timestamp := timestamp;
             AnalysisResult.metadata :=
               PDict [("directory", PStr directory);
                      ("analysis_type", PStr analysis_type);
                      ("model", PStr (model self))] |},
       trace)
  end.

(** ** [reporters/sarif_reporter.py]: [SARIFReporter]

    A reporter is a [BaseReporter]. [sarif] is the document that [generate]
    builds and hands to [json.dumps]. Whether a float is zero is the one
    computation with floats on this path; it is left to the caller, as the
    predicate [nonzero] on numerals. *)

Module SARIFReporter.

Section Truth.
Variable nonzero : string -> bool.

(** Truth of a value, as [if v:] tests it. *)
Definition py_truthy (v : pyval) : bool :=
  match v with
  | PNone => false
  | PBool b => b
  | PInt n => negb (n =? 0)%Z
  | PFloat numeral => nonzero numeral
  | PStr s => truthy s
  | PList l => negb (bool_decide (l = []))
  | PDict d => negb (bool_decide (d = []))
  end.

(** [str.title] on a text of ASCII characters: a letter after a letter is
    lowered, any other letter is raised. *)
Fixpoint title_from (previous_is_cased : bool) (s : string) : string :=
  match s with
  | EmptyString => EmptyString
  | String c s' =>
      if json.is_alpha c then
        String (if previous_is_cased then lower_char c else upper_char c)
               (title_from true s')
      else String c (title_from false s')
  end.

Definition title : string -> string := title_from false.

(** [s.replace(old, new)] for two characters. *)
Definition replace (old new : ascii) : string -> string :=
  map_string (fun c => if decide (c = old) then new else c).

Definition _severity_to_sarif (severity : Severity) : string :=
  let mapping : gmap Severity string :=
    list_to_map [
      (CRITICAL, "error");
      (HIGH, "error");
      (MEDIUM, "warning");
      (LOW, "note");
      (INFO, "note")
    ] in
  default "warning" (mapping !! severity).

Definition _type_to_rule_id (finding_type : FindingType) : string :=
  upper (FindingType_value finding_type).

(** The loop of lines 73 to 84, from the rules appended so far. *)
Fixpoint add_rules (findings : list Finding) (rule_ids : gset string)
    (rules : list pyval) : list pyval :=
  match findings with
  | [] => rules
  | finding :: findings' =>
      let rule_id := _type_to_rule_id (type finding) in
      if decide (rule_id ∉ rule_ids) then
        add_rules findings' (rule_ids ∪ {[rule_id]})
          (rules ++ [PDict [
             ("id", PStr rule_id);
             ("name", PStr (title (FindingType_value (type finding))));
             ("shortDescription",
              PDict [("text",
                      PStr (title (FindingType_value (type finding))))])
           ]])
      else add_rules findings' rule_ids rules
  end.

(** Lines 104 to 118: the region of one result. *)
Definition region (finding : Finding) : list (string * pyval) :=
  let region := [] in
  let region :=
    if py_truthy (line (location finding)) then
      let region :=
        json.dict_set region "startLine" (line (location finding)) in
      if py_truthy (end_line (location finding)) then
        json.dict_set region "endLine" (end_line (location finding))
      else region
    else region in
  if py_truthy (code_snippet finding) then
    json.dict_set region "snippet" (PDict [("text", code_snippet finding)])
  else region.

(** Lines 88 to 118: one result. *)
Definition result_item (finding : Finding) : pyval :=
  PDict [
    ("ruleId", PStr (_type_to_rule_id (type finding)));
    ("level", PStr (_severity_to_sarif (severity finding)));
    ("message", PDict [("text", message finding)]);
    ("locations",
     PList [PDict [
       ("physicalLocation",
        PDict [
          ("artifactLocation",
           PDict [("uri",
                   PStr (replace "\" "/" (file_path (location finding))))]);
          ("region", PDict (region finding))
        ])
     ]])
  ].

Definition sarif (self : BaseReporter.t) (result : AnalysisResult.t) : pyval :=
  let filtered_result := BaseReporter.filter_findings self result in
  PDict [
    ("version", PStr "2.1.0");
    ("$schema",
     PStr "https://raw.githubusercontent.com/oasis-tcs/sarif-spec/master/Schemata/sarif-schema-2.1.0.json");
    ("runs",
     PList [PDict [
       ("tool",
        PDict [("driver",
                PDict [
                  ("name", PStr "Proactive Codebase Testing");
                  ("version", PStr "0.1.0");
                  ("informationUri",
                   PStr "https://github.com/yourname/proactive-codebase-testing");
                  ("rules",
                   PList (add_rules (AnalysisResult.findings filtered_result)
                            ∅ []))
                ])]);
       ("results",
        PList (result_item <$> AnalysisResult.findings filtered_result))
     ]])
  ].

End Truth.

End SARIFReporter.

(** * Further vocabulary

    Definitions for the properties of the code that the first part of the
    properties does not reach. *)

(** A client whose first [k] requests fail and whose later requests are
    answered with [text]. *)
Definition flaky_client (k : nat) (text : string) (retries : Z) : CodeAnalyzer :=
  {| client := fun n _ =>
       if (n <? k)%nat then Raise (APIError "overloaded")
       else Ok {| content := [text] |};
     model := "claude-3-haiku-20240307";
     timeout := 30;
     max_retries := retries |}.





(** A findings array with two malformed items among four. *)
Definition four_items : string :=
  json_text "{'findings':
    [{'severity': 5}, {'message': 'a'}, 'note', {'message': 'b'}]}".

(** ** Reports *)


(** A finding as [_parse_finding] reads it back from its [to_dict] form. *)
Definition without_position (file_path : string) (f : Finding) : Finding :=
  {| type := type f; severity := severity f; message := message f;
     location :=
       {| file_path := file_path; line := PNone; column := PNone;
          end_line := PNone; end_column := PNone |};
     remediation := remediation f; confidence := confidence f;
     code_snippet := code_snippet f; rule_id := rule_id f;
     metadata := metadata f |}.

(** The rank of a severity, 0 for the most severe. *)
Definition rank (s : Severity) : nat :=
  match s with
  | CRITICAL => 0 | HIGH => 1 | MEDIUM => 2 | LOW => 3 | INFO => 4
  end.

(** [s] is at least as severe as [m]. *)
Definition at_least (m s : Severity) : bool := (rank s <=? rank m)%nat.

(** The stricter of two minimum severities, [None] being no minimum. *)
Definition stricter (a b : option Severity) : option Severity :=
  match a, b with
  | None, m | m, None => m
  | Some x, Some y => Some (if at_least x y then y else x)
  end.

(** ** Directories *)

(** The data of a file that the parser reads: [analyze_file] neither raises
    nor returns nothing. *)
Definition readable (parser : CodeParser) (file : string)
  : option FileData.t :=
  match analyze_file parser file with
  | Ok (Some file_data) => Some file_data
  | Ok None | Raise _ => None
  end.

(** The sum of a list of numbers. *)
Definition sum (l : list Z) : Z := foldr Z.add 0%Z l.

(** A parser of a directory of three files: one that cannot be read, one
    blank and one with code. *)
Definition three_files : CodeParser :=
  {| get_files_to_analyze := fun _ => Ok ["locked.py"; "blank.py"; "app.py"];
     analyze_file := fun file =>
       if decide (file = "locked.py") then Raise (APIError "permission denied")
       else if decide (file = "blank.py") then
         Ok (Some {| FileData.path := "/src/blank.py";
                     FileData.language := "python";
                     FileData.content := newline +:+ newline;
                     FileData.line_count := 2 |})
       else if decide (file = "app.py") then
         Ok (Some {| FileData.path := "/src/app.py";
                     FileData.language := "python";
                     FileData.content := "x = 1" +:+ newline;
                     FileData.line_count := 1 |})
       else Ok None |}.

(** ** What a pattern matches *)

(** Every character of the string is in the class [p]. *)
Fixpoint every (p : ascii -> bool) (s : string) : bool :=
  match s with
  | EmptyString => true
  | String c s' => p c && every p s'
  end.

(** [matches r t g]: the text [t] is in the language of [r], and [g] is the
    text of group 1 when the group takes part. *)
Inductive matches : regex -> string -> option string -> Prop :=
| matches_Chr c :
    matches (Chr c) (String c EmptyString) None
| matches_Cat r1 r2 t1 g1 t2 g2 :
    matches r1 t1 g1 -> matches r2 t2 g2 ->
    matches (Cat r1 r2) (t1 +:+ t2) (from_option Some g1 g2)
| matches_Opt_none r :
    matches (Opt r) EmptyString None
| matches_Opt_some r t g :
    matches r t g -> matches (Opt r) t g
| matches_Star p greedy t :
    every p t = true -> matches (Star p greedy) t None
| matches_Grp r t g :
    matches r t g -> matches (Grp r) t (Some t).

(** What follows the first opening brace of a text; nothing when it has
    none. *)
Fixpoint after_open (s : string) : string :=
  match s with
  | EmptyString => EmptyString
  | String c s' => if decide (c = "{"%char) then s' else after_open s'
  end.

(** The text has an opening brace and, somewhere after it, a closing
    brace. *)
Definition brace_pair (s : string) : bool :=
  negb (no_char "}" (after_open s)).

(** ** Tokens and parser states *)

(** No closing brace among the tokens. *)
Fixpoint no_close (ts : list json.token) : bool :=
  match ts with
  | [] => true
  | json.TRBrace :: _ => false
  | _ :: ts' => no_close ts'
  end.

(** No closing brace after the first opening brace. *)
Fixpoint no_close_after_open (ts : list json.token) : bool :=
  match ts with
  | [] => true
  | json.TLBrace :: ts' => no_close ts'
  | _ :: ts' => no_close_after_open ts'
  end.

Definition not_dict (v : pyval) : Prop := forall d, v <> PDict d.

(** A value that is neither an array nor an object. *)
Definition scalar (v : pyval) : Prop :=
  match v with
  | PList _ | PDict _ => False
  | PNone | PBool _ | PInt _ | PFloat _ | PStr _ => True
  end.

(** The values among the tokens are scalars. *)
Definition scalars (ts : list json.token) : Prop :=
  Forall (fun t => forall v, t = json.TValue v -> scalar v) ts.

Definition is_FDict (f : json.frame) : bool :=
  match f with
  | json.FDict _ _ => true
  | json.FList _ => false
  end.

(** A frame of an array whose items so far are no objects. *)
Definition plain_frame (f : json.frame) : Prop :=
  match f with
  | json.FList items => Forall not_dict items
  | json.FDict _ _ => False
  end.

(** A parser state in which no object has been opened yet. *)
Definition plain (s : json.state) : Prop :=
  match s with
  | json.SValue _ st => Forall plain_frame st
  | json.SAfter v st =>
      not_dict v
      /\ (forall items, v = PList items -> Forall not_dict items)
      /\ Forall plain_frame st
  | json.SKey _ _ _ | json.SColon _ _ _ => False
  end.

(** A parser state in which an object is open. *)
Definition open_dict (s : json.state) : Prop :=
  match s with
  | json.SKey _ _ _ | json.SColon _ _ _ => True
  | json.SValue _ st | json.SAfter _ st => Exists (fun f => is_FDict f = true) st
  end.

(** The outermost enclosing container is an object. *)
Fixpoint bottom_dict (st : list json.frame) : bool :=
  match st with
  | [] => false
  | f :: st' =>
      match st' with
      | [] => is_FDict f
      | _ :: _ => bottom_dict st'
      end
  end.

(** A parser state whose outermost container is an object, open or just
    completed. *)
Definition rooted (s : json.state) : Prop :=
  match s with
  | json.SValue _ st => bottom_dict st = true
  | json.SKey _ _ st | json.SColon _ _ st => st = [] \/ bottom_dict st = true
  | json.SAfter v st =>
      (st = [] /\ exists d, v = PDict d) \/ bottom_dict st = true
  end.

(** The steps of the parser, one rule for each case of [json.step]. *)
Inductive steps_to : json.state -> json.token -> json.state -> Prop :=
| step_value b st v :
    steps_to (json.SValue b st) (json.TValue v) (json.SAfter v st)
| step_open_list b st :
    steps_to (json.SValue b st) json.TLBracket
      (json.SValue true (json.FList [] :: st))
| step_open_dict b st :
    steps_to (json.SValue b st) json.TLBrace (json.SKey true [] st)
| step_empty_list items st :
    steps_to (json.SValue true (json.FList items :: st)) json.TRBracket
      (json.SAfter (PList items) st)
| step_key b d st key :
    steps_to (json.SKey b d st) (json.TValue (PStr key)) (json.SColon d key st)
| step_empty_dict d st :
    steps_to (json.SKey true d st) json.TRBrace (json.SAfter (PDict d) st)
| step_colon d key st :
    steps_to (json.SColon d key st) json.TColon
      (json.SValue false (json.FDict d key :: st))
| step_next_item v items st :
    steps_to (json.SAfter v (json.FList items :: st)) json.TComma
      (json.SValue false (json.FList (items ++ [v]) :: st))
| step_close_list v items st :
    steps_to (json.SAfter v (json.FList items :: st)) json.TRBracket
      (json.SAfter (PList (items ++ [v])) st)
| step_next_key v d key st :
    steps_to (json.SAfter v (json.FDict d key :: st)) json.TComma
      (json.SKey false (json.dict_set d key v) st)
| step_close_dict v d key st :
    steps_to (json.SAfter v (json.FDict d key :: st)) json.TRBrace
      (json.SAfter (PDict (json.dict_set d key v)) st).

(** ** SARIF documents *)

(** [v[key]] for a key of a dict; [None] stands for what is not there. *)
Definition item (key : string) (v : pyval) : pyval :=
  match v with
  | PDict d => dict_get d key PNone
  | _ => PNone
  end.

(** The items of an array. *)
Definition items_of (v : pyval) : list pyval :=
  match v with
  | PList l => l
  | _ => []
  end.

(** The run of a document, [sarif["runs"][0]]. *)
Definition run_of (sarif : pyval) : pyval :=
  default PNone (head (items_of (item "runs" sarif))).

Definition rules_of (sarif : pyval) : list pyval :=
  items_of (item "rules" (item "driver" (item "tool" (run_of sarif)))).

Definition results_of (sarif : pyval) : list pyval :=
  items_of (item "results" (run_of sarif)).

(** The region of a result. *)
Definition region_of (result : pyval) : pyval :=
  item "region"
    (item "physicalLocation"
       (default PNone (head (items_of (item "locations" result))))).

(** A dict has the key. *)
Definition has_key (key : string) (v : pyval) : bool :=
  match v with
  | PDict d => bool_decide (is_Some (dict_lookup d key))
  | _ => false
  end.

(** * Properties *)

(** ** One finding item *)

Lemma parse_finding_dict d file_path :
  _parse_finding (PDict d) file_path =
  match dict_get d "severity" (PStr "medium"),
        dict_get d "type" (PStr "QUALITY") with
  | PStr s, PStr t => Ok (finding_of d file_path (lower s) (upper t))
  | _, _ => Raise AttributeError
  end.
Proof.
  unfold _parse_finding, py_get, mbind, result_bind; simpl.
  destruct (dict_get d "severity" _); simpl; try reflexivity;
    destruct (dict_get d "type" _); reflexivity.
Qed.

Lemma parse_finding_not_dict v file_path :
  (forall d, v <> PDict d) -> _parse_finding v file_path = Raise AttributeError.
Proof.
  intros Hv. destruct v; try reflexivity. now destruct (Hv d).
Qed.

(** Whatever [_parse_finding] raises is an [AttributeError]; an item that
    yields a finding is a dict. *)
Lemma parse_finding_cases v file_path :
  _parse_finding v file_path = Raise AttributeError
  \/ exists d s t,
       v = PDict d
       /\ dict_get d "severity" (PStr "medium") = PStr s
       /\ dict_get d "type" (PStr "QUALITY") = PStr t
       /\ _parse_finding v file_path
          = Ok (finding_of d file_path (lower s) (upper t)).
Proof.
  destruct v as [| | | | |l|d]; try (left; reflexivity).
  rewrite parse_finding_dict.
  destruct (dict_get d "severity" _) as [| | | |s| |] eqn:Hs;
    try (left; reflexivity).
  destruct (dict_get d "type" _) as [| | | |t| |] eqn:Ht;
    try (left; reflexivity).
  right. exists d, s, t. auto.
Qed.

(** *** Case folding *)






(** *** The enums *)





Example severity_upper_case :
  severity <$> _parse_finding (PDict [("severity", PStr "CRITICAL")]) "app.py"
  = Ok CRITICAL.
Proof. reflexivity. Qed.

Example severity_mixed_case :
  severity <$> _parse_finding (PDict [("severity", PStr "Info")]) "app.py"
  = Ok INFO.
Proof. reflexivity. Qed.

Example type_lower_case :
  type <$> _parse_finding (PDict [("type", PStr "performance")]) "app.py"
  = Ok PERFORMANCE.
Proof. reflexivity. Qed.

Example type_unknown :
  type <$> _parse_finding (PDict [("type", PStr "SQL_INJECTION")]) "app.py"
  = Ok QUALITY.
Proof. reflexivity. Qed.

(** A severity or type that is present and is not a string makes the
    mapping raise: [.lower()] and [.upper()] exist on a str only. *)
Lemma parse_finding_non_string d file_path v :
  (dict_lookup d "severity" = Some v \/ dict_lookup d "type" = Some v) ->
  (forall s, v <> PStr s) ->
  _parse_finding (PDict d) file_path = Raise AttributeError.
Proof.
  intros Hv Hs. rewrite parse_finding_dict. unfold dict_get.
  destruct Hv as [Hv|Hv]; rewrite Hv; simpl.
  - destruct v; try reflexivity. now destruct (Hs s).
  - destruct v; try (destruct (default _ _); reflexivity).
    now destruct (Hs s).
Qed.




(** ** The message and the confidence of a finding *)

(** C9, as stated, fails: a finding item whose message is the empty string
    yields a finding with an empty message. *)
Lemma parse_api_response_empty_message :
  exists f,
    _parse_api_response (json_text "{'findings': [{'message': ''}]}") "app.py"
    = Ok [f]
    /\ message f = PStr "".
Proof. eexists. split; reflexivity. Qed.

(** C9, amended: when the message field is absent from a finding item, the
    message of the finding is the placeholder [Unknown issue], which is not
    empty; when the field is present, the message of the finding is the
    value of the field, unchanged. *)
Theorem parse_finding_message v file_path f :
  _parse_finding v file_path = Ok f ->
  exists d,
    v = PDict d
    /\ (dict_lookup d "message" = None ->
        message f = PStr "Unknown issue" /\ message f <> PStr "")
    /\ (forall m, dict_lookup d "message" = Some m -> message f = m).
Proof.
  intros Hf.
  destruct (parse_finding_cases v file_path) as [H|(d & s & t & -> & _ & _ & H)];
    rewrite H in Hf; [discriminate|].
  injection Hf as <-. exists d. split; [reflexivity|]. simpl. unfold dict_get.
  split.
  - intros ->. simpl. split; [reflexivity | discriminate].
  - intros m ->. reflexivity.
Qed.

Lemma parse_finding_message_witness :
  exists f,
    _parse_finding (PDict [("severity", PStr "high")]) "app.py" = Ok f
    /\ message f = PStr "Unknown issue".
Proof.
  eexists. split; [reflexivity|].
  destruct (parse_finding_message
              (PDict [("severity", PStr "high")]) "app.py" _ eq_refl)
    as (d & Hd & Habsent & _).
  injection Hd as <-. apply Habsent. reflexivity.
Defined.



Example confidence_absent :
  confidence <$> _parse_finding (PDict [("message", PStr "m")]) "app.py"
  = Ok (PFloat "0.8").
Proof. reflexivity. Qed.

Example confidence_negative :
  confidence <$> _parse_finding (PDict [("confidence", PInt (-3))]) "app.py"
  = Ok (PInt (-3)).
Proof. reflexivity. Qed.

(** ** A whole response *)

Lemma mapped_cons file_path item items :
  mapped file_path (item :: items) =
  match _parse_finding item file_path with
  | Ok f => f :: mapped file_path items
  | Raise _ => mapped file_path items
  end.
Proof.
  unfold mapped. simpl. now destruct (_parse_finding item file_path).
Qed.

Lemma parse_each_mapped file_path items findings :
  parse_each items file_path findings = findings ++ mapped file_path items.
Proof.
  revert findings. induction items as [|item items IH]; intros findings.
  - simpl. now rewrite app_nil_r.
  - rewrite mapped_cons. cbn [parse_each].
    destruct (_parse_finding item file_path) as [f|e]; rewrite IH.
    + now rewrite <- app_assoc.
    + reflexivity.
Qed.

Lemma mapped_app file_path l1 l2 :
  mapped file_path (l1 ++ l2) = mapped file_path l1 ++ mapped file_path l2.
Proof. apply omap_app. Qed.

Lemma mapped_well_formed file_path items fs :
  Forall2 (maps_to file_path) items fs -> mapped file_path items = fs.
Proof.
  induction 1 as [|item f items fs Hf _ IH]; [reflexivity|].
  rewrite mapped_cons, Hf, IH. reflexivity.
Qed.

Lemma mapped_malformed file_path item items :
  malformed file_path item ->
  mapped file_path (item :: items) = mapped file_path items.
Proof. intros [e He]. now rewrite mapped_cons, He. Qed.

(** A field of another type than the dataclass declares does not make the
    mapping raise, except for the severity and the type: such an item is
    well formed in the sense above, and its value is stored as it is. *)
Example message_of_wrong_type :
  message <$> _parse_finding (PDict [("message", PInt 5)]) "app.py"
  = Ok (PInt 5).
Proof. reflexivity. Qed.

(** The malformed items: those that are not an object, and the objects
    whose severity or type is present and is not a string. *)
Lemma malformed_iff file_path item :
  malformed file_path item <->
  (forall d, item <> PDict d)
  \/ exists d v,
       item = PDict d
       /\ (dict_lookup d "severity" = Some v \/ dict_lookup d "type" = Some v)
       /\ forall s, v <> PStr s.
Proof.
  split.
  - intros [e He]. destruct item as [| | | | |l|d];
      try (left; intros d'; discriminate).
    right. exists d. rewrite parse_finding_dict in He. unfold dict_get in He.
    destruct (dict_lookup d "severity") as [[| | | |s| |]|] eqn:Es;
      simpl in He;
      try (eexists; split; [reflexivity|];
           split; [left; reflexivity | intros s'; discriminate]);
      destruct (dict_lookup d "type") as [[| | | |t| |]|] eqn:Et;
      simpl in He; try discriminate;
      (eexists; split; [reflexivity|];
       split; [right; reflexivity | intros s'; discriminate]).
  - intros [Hd|(d & v & -> & Hv & Hs)]; exists AttributeError.
    + now apply parse_finding_not_dict.
    + now apply (parse_finding_non_string d file_path v).
Qed.

Lemma parse_api_response_array response file_path data items :
  json.loads (extract_json response) = Ok data ->
  findings_array data items ->
  _parse_api_response response file_path = Ok (mapped file_path items).
Proof.
  intros Hdata Harr. unfold _parse_api_response. rewrite Hdata.
  destruct Harr as [d items Hd|items]; simpl.
  - unfold dict_get. rewrite Hd. simpl. now rewrite parse_each_mapped.
  - now rewrite parse_each_mapped.
Qed.

(** C1: when the decoded response has a findings array in which one item
    is malformed (its mapping raises) and the others are well formed, the
    result is the list of the findings of the well-formed items, in the
    order of the array; only the malformed item is skipped. *)
Theorem parse_api_response_skips_malformed
    response file_path data before bad after fs1 fs2 :
  json.loads (extract_json response) = Ok data ->
  findings_array data (before ++ bad :: after) ->
  Forall2 (maps_to file_path) before fs1 ->
  malformed file_path bad ->
  Forall2 (maps_to file_path) after fs2 ->
  _parse_api_response response file_path = Ok (fs1 ++ fs2).
Proof.
  intros Hdata Harr H1 Hbad H2.
  rewrite (parse_api_response_array _ _ _ _ Hdata Harr).
  rewrite mapped_app, (mapped_malformed _ _ _ Hbad).
  now rewrite (mapped_well_formed _ _ _ H1), (mapped_well_formed _ _ _ H2).
Qed.

Lemma parse_api_response_skips_malformed_witness :
  exists f1 f3,
    _parse_api_response three_items "app.py" = Ok [f1; f3]
    /\ (message f1, severity f1, type f1) = (PStr "first", CRITICAL, SECURITY)
    /\ (message f3, severity f3, type f3) = (PStr "third", LOW, QUALITY).
Proof.
  eexists _, _. split.
  - eapply (parse_api_response_skips_malformed three_items "app.py" _
              [_] _ [_] [_] [_]).
    + vm_compute. reflexivity.
    + apply findings_field. vm_compute. reflexivity.
    + constructor; [vm_compute; reflexivity | constructor].
    + exists AttributeError. vm_compute. reflexivity.
    + constructor; [vm_compute; reflexivity | constructor].
  - split; reflexivity.
Defined.

(** *** What [_parse_api_response] lets through *)

Lemma parse_api_response_malformed_json response file_path :
  json.loads (extract_json response) = Raise JSONDecodeError ->
  _parse_api_response response file_path = Ok [].
Proof. intros H. unfold _parse_api_response. now rewrite H. Qed.

Lemma parse_api_response_scalar response file_path data :
  json.loads (extract_json response) = Ok data ->
  (forall d, data <> PDict d) -> (forall l, data <> PList l) ->
  _parse_api_response response file_path = Ok [].
Proof.
  intros H Hd Hl. unfold _parse_api_response. rewrite H.
  destruct data; try reflexivity; [now destruct (Hl l)|now destruct (Hd d)].
Qed.

Lemma loads_raises response e :
  json.loads response = Raise e -> e = JSONDecodeError.
Proof.
  unfold json.loads. destruct (_ ≫= _); [discriminate|]. congruence.
Qed.


(** C2, the failing input: the response is an object whose findings field
    is a number; iterating over it raises a [TypeError], which the handler
    of [JSONDecodeError] does not catch, so it reaches the caller. *)
Theorem parse_api_response_findings_number :
  _parse_api_response (json_text "{'findings': 5}") "app.py"
  = Raise TypeError.
Proof. reflexivity. Qed.

Example parse_api_response_findings_null :
  _parse_api_response (json_text "{'findings': null}") "app.py"
  = Raise TypeError.
Proof. reflexivity. Qed.

Example parse_api_response_findings_string :
  _parse_api_response (json_text "{'findings': 'none'}") "app.py" = Ok [].
Proof. reflexivity. Qed.

Example parse_api_response_not_json :
  _parse_api_response "I found no issue." "app.py" = Ok [].
Proof. reflexivity. Qed.

Example parse_api_response_number :
  _parse_api_response "42" "app.py" = Ok [].
Proof. reflexivity. Qed.

(** ** [analyze_code] *)

Lemma lstrip_all_space s : all_space s = true -> lstrip s = EmptyString.
Proof.
  induction s as [|c s IH]; simpl; [reflexivity|].
  intros [Hc Hs]%andb_prop. rewrite Hc. auto.
Qed.

Lemma rstrip_not_all_space s : all_space s = false -> rstrip s <> EmptyString.
Proof.
  induction s as [|c s IH]; simpl; [discriminate|].
  intros H. destruct (rstrip s) eqn:Hr; [|discriminate].
  destruct (isspace c); [|discriminate]. simpl in H.
  now specialize (IH H).
Qed.

Lemma lstrip_not_all_space s : all_space s = false -> all_space (lstrip s) = false.
Proof.
  induction s as [|c s IH]; simpl; [discriminate|].
  destruct (isspace c) eqn:Hc; simpl; [exact IH|].
  intros _. now rewrite Hc.
Qed.

(** [strip] leaves nothing exactly of the strings made of whitespace. *)
Lemma strip_empty_iff s : strip s = EmptyString <-> all_space s = true.
Proof.
  unfold strip. split.
  - intros H. destruct (all_space s) eqn:Hs; [reflexivity|].
    now apply lstrip_not_all_space, rstrip_not_all_space in Hs.
  - intros H. now rewrite lstrip_all_space.
Qed.



(** A code that is not blank does reach the client. *)
Example analyze_code_not_blank :
  requests (analyze_code (failing_client 1) "x = 1" "python" "app.py"
              "comprehensive" []).2 = 1.
Proof. reflexivity. Qed.

(** *** Retries *)

Lemma requests_app t1 t2 : requests (t1 ++ t2) = requests t1 + requests t2.
Proof. unfold requests. now rewrite filter_app, length_app. Qed.

Lemma attempts_all_fail self prompt file_name m :
  forall a trace,
    max_retries self = Z.of_nat (a + m) ->
    (forall k, k < m ->
       exists e, client self (requests trace + k) prompt = Raise e) ->
    attempts self prompt file_name (Z.of_nat <$> seq a m) trace
    = ([], trace ++ failed_attempts prompt a m).
Proof.
  induction m as [|m IH]; intros a trace Hmax Hfail.
  - simpl. now rewrite app_nil_r.
  - cbn [seq fmap list_fmap attempts attempt_once].
    destruct (Hfail 0 ltac:(lia)) as [e He].
    rewrite Nat.add_0_r in He. rewrite He. cbn [mbind result_bind].
    rewrite Hmax. destruct m as [|m].
    + replace (Z.of_nat a <? Z.of_nat (a + 1) - 1)%Z with false
        by (symmetry; apply Z.ltb_ge; lia).
      reflexivity.
    + replace (Z.of_nat a <? Z.of_nat (a + S (S m)) - 1)%Z with true
        by (symmetry; apply Z.ltb_lt; lia).
      rewrite IH.
      * rewrite <- !app_assoc. reflexivity.
      * rewrite Hmax. f_equal. lia.
      * intros k Hk. destruct (Hfail (S k) ltac:(lia)) as [e' He'].
        exists e'. rewrite <- He'. f_equal.
        rewrite !requests_app.
        change (requests [Request prompt]) with 1.
        change (requests [Sleep (2 ^ Z.of_nat a)]) with 0. lia.
Qed.

(** Whatever the number of attempts, when every request fails the delay
    before retry [k], counted from 0, is [2 ^ k]. *)
Lemma analyze_code_all_fail self code language file_name analysis_type trace :
  all_space code = false ->
  (forall k, exists e,
     client self (requests trace + k)
       (get_prompt analysis_type file_name code language) = Raise e) ->
  analyze_code self code language file_name analysis_type trace
  = ([], trace ++ failed_attempts
                    (get_prompt analysis_type file_name code language)
                    0 (Z.to_nat (max_retries self))).
Proof.
  intros Hcode Hfail. unfold analyze_code.
  assert (Hs : strip code <> EmptyString).
  { intros H. apply strip_empty_iff in H. congruence. }
  assert (Hc : code <> EmptyString) by (intros ->; now apply Hs).
  destruct code as [|c code]; [congruence|].
  destruct (strip (String c code)); [congruence|]. simpl.
  unfold range. destruct (Z.le_gt_cases 0 (max_retries self)) as [Hm|Hm].
  - apply attempts_all_fail; [lia | auto].
  - replace (Z.to_nat (max_retries self)) with 0 by lia. simpl.
    now rewrite app_nil_r.
Qed.



(** The [TypeError] of C2 is caught in [analyze_code] like a failure of the
    request: the same response is asked for again, after a sleep. *)
Example analyze_code_retries_on_findings_number :
  let self := constant_client (json_text "{'findings': 5}") in
  let r := analyze_code self "x = 1" "python" "app.py" "comprehensive" [] in
  r.1 = [] /\ sleeps r.2 = [1%Z; 2%Z] /\ requests r.2 = 3.
Proof. repeat split. Qed.

(** ** The summary of a result *)

Module AnalysisResultFacts.
Import AnalysisResult.

Lemma total_insert (k : string) (n : nat) (m : gmap string nat) :
  m !! k = None -> total (<[k := n]> m) = n + total m.
Proof.
  intros Hk. unfold total. apply map_fold_insert_L; [|exact Hk].
  intros. lia.
Qed.

Lemma total_empty : total ∅ = 0.
Proof. apply map_fold_empty. Qed.

(** Each finding has exactly one severity and exactly one type. *)
Lemma severity_partition (l : list Finding) :
  length (filter (fun f => severity f = CRITICAL) l)
  + length (filter (fun f => severity f = HIGH) l)
  + length (filter (fun f => severity f = MEDIUM) l)
  + length (filter (fun f => severity f = LOW) l)
  + length (filter (fun f => severity f = INFO) l)
  = length l.
Proof.
  induction l as [|f l IH]; [reflexivity|].
  rewrite !filter_cons.
  destruct (severity f); repeat case_decide; try congruence; simpl; lia.
Qed.

Lemma type_partition (l : list Finding) :
  length (filter (fun f => type f = SECURITY) l)
  + length (filter (fun f => type f = BUG) l)
  + length (filter (fun f => type f = QUALITY) l)
  + length (filter (fun f => type f = PERFORMANCE) l)
  + length (filter (fun f => type f = ACCESSIBILITY) l)
  = length l.
Proof.
  induction l as [|f l IH]; [reflexivity|].
  rewrite !filter_cons.
  destruct (type f); repeat case_decide; try congruence; simpl; lia.
Qed.

(** C7: for every result, [get_summary] reports as [total_findings] the
    length of the findings; the counts of the breakdown by severity sum to
    that total, and so do the counts of the breakdown by type. *)
Theorem get_summary_totals (self : t) :
  total_findings (get_summary self) = length (findings self)
  /\ total (findings_by_severity (get_summary self))
     = total_findings (get_summary self)
  /\ total (findings_by_type (get_summary self))
     = total_findings (get_summary self).
Proof.
  split; [reflexivity|]. unfold get_summary. simpl. split.
  - rewrite !total_insert, total_empty by done.
    unfold get_findings_by_severity.
    pose proof (severity_partition (findings self)). lia.
  - rewrite !total_insert, total_empty by done.
    unfold get_findings_by_type.
    pose proof (type_partition (findings self)). lia.
Qed.

(** Each count of a breakdown is the number of findings of that member. *)
Lemma get_summary_by_severity (self : t) (s : Severity) :
  findings_by_severity (get_summary self) !! Severity_value s
  = Some (length (get_findings_by_severity self s)).
Proof. destruct s; reflexivity. Qed.

Lemma get_summary_by_type (self : t) (finding_type : FindingType) :
  findings_by_type (get_summary self) !! FindingType_value finding_type
  = Some (length (get_findings_by_type self finding_type)).
Proof. destruct finding_type; reflexivity. Qed.

End AnalysisResultFacts.

(** ** The prompt *)

Lemma append_nil_l (s : string) : EmptyString +:+ s = s.
Proof. reflexivity. Qed.

Lemma append_cons (c : ascii) (a b : string) :
  String c a +:+ b = String c (a +:+ b).
Proof. reflexivity. Qed.

Lemma append_assoc (a b c : string) : (a +:+ b) +:+ c = a +:+ (b +:+ c).
Proof.
  induction a as [|x a IH]; [reflexivity|].
  rewrite !append_cons. now f_equal.
Qed.

Lemma strip_prefix_spec p s rest :
  strip_prefix p s = Some rest -> s = p +:+ rest.
Proof.
  revert s. induction p as [|a p IH]; intros s; simpl.
  - now intros [= ->].
  - destruct s as [|b s]; [discriminate|].
    case_decide; [|discriminate]. subst. intros H.
    now rewrite append_cons, (IH _ H).
Qed.

Lemma split_at_spec needle hay a b :
  split_at needle hay = Some (a, b) -> hay = a +:+ needle +:+ b.
Proof.
  revert a b. induction hay as [|c hay IH]; intros a b; simpl.
  - destruct (strip_prefix needle EmptyString) eqn:E; [|discriminate].
    intros [= <- <-]. rewrite append_nil_l. now apply strip_prefix_spec.
  - destruct (strip_prefix needle (String c hay)) eqn:E.
    + intros [= <- <-]. rewrite append_nil_l. now apply strip_prefix_spec.
    + destruct (split_at needle hay) as [[a' b']|] eqn:E'; [|discriminate].
      simpl. intros [= <- <-]. rewrite append_cons.
      now rewrite <- (IH _ _ eq_refl).
Qed.

Lemma closes_and_instructs_by_search s rest mid tail :
  strip_prefix (newline +:+ "```") s = Some rest ->
  split_at json_instruction rest = Some (mid, tail) ->
  closes_and_instructs s.
Proof.
  intros H1 H2. exists mid, tail.
  apply strip_prefix_spec in H1. apply split_at_spec in H2.
  rewrite H1, H2. reflexivity.
Qed.

Ltac closes_and_instructs :=
  eapply closes_and_instructs_by_search; vm_compute; reflexivity.

Lemma security_instructions_shape : closes_and_instructs security_instructions.
Proof. closes_and_instructs. Qed.

Lemma bug_detection_instructions_shape :
  closes_and_instructs bug_detection_instructions.
Proof. closes_and_instructs. Qed.

Lemma quality_instructions_shape : closes_and_instructs quality_instructions.
Proof. closes_and_instructs. Qed.

Lemma comprehensive_instructions_shape :
  closes_and_instructs comprehensive_instructions.
Proof. closes_and_instructs. Qed.

Lemma get_security_prompt_embeds file_name code language :
  embeds (get_security_prompt file_name code language) language code.
Proof.
  unfold get_security_prompt.
  destruct security_instructions_shape as (mid & tail & ->).
  exists ("Analyze the following " +:+ language
          +:+ " code for security vulnerabilities." +:+ newline +:+ newline
          +:+ "File: " +:+ file_name +:+ newline +:+ newline
          +:+ "Code:" +:+ newline), mid, tail.
  unfold fenced_code. rewrite !append_assoc. reflexivity.
Qed.

Lemma get_bug_detection_prompt_embeds file_name code language :
  embeds (get_bug_detection_prompt file_name code language) language code.
Proof.
  unfold get_bug_detection_prompt.
  destruct bug_detection_instructions_shape as (mid & tail & ->).
  exists ("Analyze the following " +:+ language
          +:+ " code for bugs and logic errors." +:+ newline +:+ newline
          +:+ "File: " +:+ file_name +:+ newline +:+ newline
          +:+ "Code:" +:+ newline), mid, tail.
  unfold fenced_code. rewrite !append_assoc. reflexivity.
Qed.

Lemma get_quality_prompt_embeds file_name code language :
  embeds (get_quality_prompt file_name code language) language code.
Proof.
  unfold get_quality_prompt.
  destruct quality_instructions_shape as (mid & tail & ->).
  exists ("Analyze the following " +:+ language
          +:+ " code for code quality issues." +:+ newline +:+ newline
          +:+ "File: " +:+ file_name +:+ newline +:+ newline
          +:+ "Code:" +:+ newline), mid, tail.
  unfold fenced_code. rewrite !append_assoc. reflexivity.
Qed.

Lemma get_comprehensive_prompt_embeds file_name code language :
  embeds (get_comprehensive_prompt file_name code language) language code.
Proof.
  unfold get_comprehensive_prompt.
  destruct comprehensive_instructions_shape as (mid & tail & ->).
  exists ("Perform a comprehensive analysis of the following " +:+ language
          +:+ " code." +:+ newline +:+ newline
          +:+ "File: " +:+ file_name +:+ newline +:+ newline
          +:+ "Code:" +:+ newline), mid, tail.
  unfold fenced_code. rewrite !append_assoc. reflexivity.
Qed.

Lemma prompts_lookup (name : string) :
  prompts !! name =
  if decide (name = "security") then Some get_security_prompt
  else if decide (name = "bugs") then Some get_bug_detection_prompt
  else if decide (name = "quality") then Some get_quality_prompt
  else if decide (name = "comprehensive") then Some get_comprehensive_prompt
  else None.
Proof.
  unfold prompts. simpl. rewrite !lookup_insert, lookup_empty.
  repeat case_decide; congruence.
Qed.

(** C8: [get_prompt] is a total function of its four strings. The analysis
    type is matched up to the case of letters: [security], [bugs] and
    [quality] select their template, and every other value, known or not,
    selects the comprehensive template. Whatever the analysis type, the
    prompt embeds the code between a fence tagged with the language and a
    closing fence, and after it tells to answer with a JSON object that has
    a findings array. *)
Theorem get_prompt_selects_and_embeds analysis_type file_name code language :
  (lower analysis_type = "security" ->
   get_prompt analysis_type file_name code language
   = get_security_prompt file_name code language)
  /\ (lower analysis_type = "bugs" ->
      get_prompt analysis_type file_name code language
      = get_bug_detection_prompt file_name code language)
  /\ (lower analysis_type = "quality" ->
      get_prompt analysis_type file_name code language
      = get_quality_prompt file_name code language)
  /\ (lower analysis_type ∉ ["security"; "bugs"; "quality"] ->
      get_prompt analysis_type file_name code language
      = get_comprehensive_prompt file_name code language)
  /\ embeds (get_prompt analysis_type file_name code language) language code.
Proof.
  unfold get_prompt. rewrite prompts_lookup.
  repeat split.
  - intros ->. reflexivity.
  - intros ->. reflexivity.
  - intros ->. reflexivity.
  - intros Hnot. repeat case_decide; try reflexivity;
      exfalso; apply Hnot; set_solver.
  - repeat case_decide; simpl;
      auto using get_security_prompt_embeds, get_bug_detection_prompt_embeds,
        get_quality_prompt_embeds, get_comprehensive_prompt_embeds.
Qed.

Lemma get_prompt_selects_and_embeds_witness :
  get_prompt "Performance" "app.py" "x = 1" "python"
  = get_comprehensive_prompt "app.py" "x = 1" "python".
Proof.
  apply (get_prompt_selects_and_embeds "Performance" "app.py" "x = 1" "python").
  change (lower "Performance") with "performance".
  rewrite !not_elem_of_cons.
  repeat split; try discriminate. apply not_elem_of_nil.
Defined.

Example get_prompt_upper_case :
  get_prompt "SECURITY" "app.py" "x = 1" "python"
  = get_security_prompt "app.py" "x = 1" "python".
Proof. reflexivity. Qed.

(** ** Extraction of the JSON text *)

Lemma append_nil_r (s : string) : s +:+ EmptyString = s.
Proof.
  induction s as [|c s IH]; [reflexivity|]. now rewrite append_cons, IH.
Qed.

Section MatcherFacts.
Context {R : Type}.
Implicit Types (k : @cont R) (s t rest : string).




(** A star fails when its continuation fails wherever the star may stop. *)
Lemma star_none p greedy s k :
  (forall t rest, s = t +:+ rest -> k t None rest = None) ->
  star p greedy s k = None.
Proof.
  revert k. induction s as [|c s IH]; intros k Hk; cbn [star].
  - apply Hk. reflexivity.
  - assert (H0 : k EmptyString None (String c s) = None)
      by (apply Hk; reflexivity).
    assert (H1 : star p greedy s (fun t g rest => k (String c t) g rest) = None).
    { apply IH. intros t rest ->. apply Hk. reflexivity. }
    destruct (p c); [|exact H0].
    destruct greedy; now rewrite H0, H1.
Qed.



(** A greedy star goes back to the last position that the continuation
    accepts. *)
Lemma star_greedy_last b s k x :
  star dot true s (fun t g rest => k (b +:+ t) g rest) = Some x ->
  star dot true (b +:+ s) k = Some x.
Proof.
  revert k. induction b as [|c b IH]; intros k Hk.
  - exact Hk.
  - rewrite append_cons. cbn [star]. unfold dot at 1.
    rewrite (IH (fun t g rest => k (String c t) g rest) Hk). reflexivity.
Qed.

End MatcherFacts.

Lemma no_char_cons c x s :
  no_char c (String x s) = true -> x <> c /\ no_char c s = true.
Proof.
  simpl. intros [Hx Hs]%andb_prop. split; [|exact Hs].
  now apply negb_true_iff, bool_decide_eq_false in Hx.
Qed.

Lemma no_char_app_r c a b : no_char c (a +:+ b) = true -> no_char c b = true.
Proof.
  induction a as [|x a IH]; [auto|]. rewrite append_cons.
  intros [_ H]%no_char_cons. auto.
Qed.

Lemma contains_fence_cons c s :
  contains_fence (String c s) = false ->
  starts_fence (String c s) = false /\ contains_fence s = false.
Proof.
  intros H. change (contains_fence (String c s))
    with (starts_fence (String c s) || contains_fence s) in H.
  now apply orb_false_elim in H.
Qed.


(** A fence does not match a text that does not start with one. *)
Lemma rmatch_fence_none {R} s (k : @cont R) :
  starts_fence s = false -> rmatch fence s k = None.
Proof.
  unfold fence. cbn [lit rmatch]. intros H.
  destruct s as [|a [|b [|c s]]]; try reflexivity;
    repeat (case_decide; [|reflexivity]); try reflexivity.
  subst. unfold starts_fence in H.
  rewrite !bool_decide_eq_true_2 in H by reflexivity. discriminate.
Qed.



(** Without a fence in the text, [fence_re] matches nowhere. *)
Lemma search_fence_none s :
  contains_fence s = false -> re_search fence_re s = None.
Proof.
  induction s as [|c s IH]; intros Hs; [reflexivity|].
  apply contains_fence_cons in Hs as [Hc Hs]. cbn [re_search].
  unfold match_here at 1, fence_re at 1. cbn [rmatch].
  rewrite rmatch_fence_none by exact Hc. now apply IH.
Qed.




Section FencedBlock.
Context {R : Type} (Q : R -> Prop).
Implicit Types (k : @cont R).




End FencedBlock.





Lemma re_search_here r s m : match_here r s = Some m -> re_search r s = Some m.
Proof. intros H. destruct s; simpl; now rewrite H. Qed.

(** No match of [brace_re] starts before the first opening brace. *)
Lemma search_brace_skip a rest :
  no_char "{" a = true ->
  re_search brace_re (a +:+ rest) = re_search brace_re rest.
Proof.
  induction a as [|c a IH]; intros Ha; [reflexivity|].
  apply no_char_cons in Ha as [Hc Ha].
  rewrite append_cons. cbn [re_search].
  unfold match_here at 1, brace_re at 1. cbn [rmatch].
  rewrite decide_False by exact Hc. now apply IH.
Qed.

(** From the first opening brace, [brace_re] matches up to the last closing
    brace. *)
Lemma brace_span_matches b c :
  no_char "}" c = true ->
  match_here brace_re ("{" +:+ b +:+ "}" +:+ c)
  = Some {| group0 := "{" +:+ b +:+ "}"; group1 := None |}.
Proof.
  intros Hc. unfold match_here, brace_re. cbn [rmatch].
  change ("{" +:+ b +:+ "}" +:+ c) with (String "{" (b +:+ String "}" c)).
  cbv beta iota. rewrite decide_True by reflexivity.
  apply star_greedy_last. cbn [star]. unfold dot at 1.
  rewrite star_none.
  - cbn [or_else]. rewrite decide_True by reflexivity.
    now rewrite append_nil_r.
  - intros t rest ->. apply no_char_app_r in Hc.
    destruct rest as [|x rest]; [reflexivity|].
    apply no_char_cons in Hc as [Hx _]. now rewrite decide_False.
Qed.




Example extract_json_greedy :
  extract_json "Result: {a} and {b}." = "{a} and {b}".
Proof. reflexivity. Qed.

Example extract_json_nothing :
  extract_json "No issue found." = "No issue found.".
Proof. reflexivity. Qed.

(** * Further properties *)

(** ** [analyze_code]: the shape of every run *)

Lemma analyze_code_attempts self code language file_name analysis_type trace :
  all_space code = false ->
  analyze_code self code language file_name analysis_type trace
  = attempts self (get_prompt analysis_type file_name code language) file_name
      (range (max_retries self)) trace.
Proof.
  intros Hcode. unfold analyze_code.
  assert (Hs : strip code <> EmptyString).
  { intros H. apply strip_empty_iff in H. congruence. }
  assert (Hc : code <> EmptyString) by (intros ->; now apply Hs).
  destruct code as [|c code]; [congruence|].
  now destruct (strip (String c code)); [congruence|].
Qed.

Lemma analyze_code_no_attempt self code language file_name analysis_type trace :
  all_space code = true ->
  analyze_code self code language file_name analysis_type trace = ([], trace).
Proof.
  intros H. unfold analyze_code.
  apply strip_empty_iff in H. rewrite H. simpl. now rewrite orb_true_r.
Qed.

Lemma requests_failed_attempts prompt m : forall a,
  requests (failed_attempts prompt a m) = m.
Proof.
  induction m as [|[|m] IH]; intros a; [reflexivity..|].
  change (failed_attempts prompt a (S (S m)))
    with ([Request prompt; Sleep (2 ^ Z.of_nat a)]
          ++ failed_attempts prompt (S a) (S m)).
  rewrite requests_app, IH. reflexivity.
Qed.


Lemma attempts_shape self prompt file_name n : forall a trace,
  (1 <= n -> max_retries self = Z.of_nat (a + n)) ->
  exists m,
    m <= n /\ (1 <= n -> 1 <= m)
    /\ (attempts self prompt file_name (Z.of_nat <$> seq a n) trace).2
       = trace ++ failed_attempts prompt a m.
Proof.
  induction n as [|n IH]; intros a trace Hmax.
  - exists 0. split; [lia|]. split; [lia|]. simpl. now rewrite app_nil_r.
  - cbn [seq fmap list_fmap attempts attempt_once].
    destruct (_ ≫= _) as [findings|e].
    { exists 1. split; [lia|]. split; [lia|]. reflexivity. }
    rewrite Hmax by lia. destruct n as [|n].
    + replace (Z.of_nat a <? Z.of_nat (a + 1) - 1)%Z with false
        by (symmetry; apply Z.ltb_ge; lia).
      exists 1. split; [lia|]. split; [lia|]. reflexivity.
    + replace (Z.of_nat a <? Z.of_nat (a + S (S n)) - 1)%Z with true
        by (symmetry; apply Z.ltb_lt; lia).
      destruct (IH (S a) ((trace ++ [Request prompt])
                          ++ [Sleep (2 ^ Z.of_nat a)]))
        as (m & Hm & Hpos & Htrace);
        [intros _; rewrite Hmax by lia; f_equal; lia|].
      destruct m as [|m]; [lia|].
      exists (S (S m)). split; [lia|]. split; [lia|].
      rewrite Htrace, <- !app_assoc. reflexivity.
Qed.

(** X1: whatever the client answers and whatever the code is,
    [analyze_code] adds to the trace [m] requests with [m] at most
    [max_retries], all with the prompt of [get_prompt], and one sleep
    between two consecutive requests, the sleep after request [k] (from 0)
    lasting [2 ^ k]: it never sends more requests than [max_retries] and
    never sleeps after its last request. *)
Theorem analyze_code_trace_shape
    self code language file_name analysis_type trace :
  exists m,
    (Z.of_nat m <= Z.max 0 (max_retries self))%Z
    /\ (analyze_code self code language file_name analysis_type trace).2
       = trace ++ failed_attempts
                    (get_prompt analysis_type file_name code language) 0 m.
Proof.
  destruct (all_space code) eqn:Hcode.
  - exists 0. split; [lia|].
    rewrite analyze_code_no_attempt by exact Hcode. simpl.
    now rewrite app_nil_r.
  - rewrite analyze_code_attempts by exact Hcode. unfold range.
    destruct (attempts_shape self
                (get_prompt analysis_type file_name code language) file_name
                (Z.to_nat (max_retries self)) 0 trace)
      as (m & Hm & _ & Htrace); [lia|].
    exists m. split; [lia | exact Htrace].
Qed.






(** X4: with [max_retries] zero or negative the range of attempts is
    empty: [analyze_code] returns no finding without any request, also for
    a code that is not blank. *)
Theorem analyze_code_no_retries
    self code language file_name analysis_type trace :
  (max_retries self <= 0)%Z ->
  analyze_code self code language file_name analysis_type trace = ([], trace).
Proof.
  intros Hmax. destruct (all_space code) eqn:Hcode.
  - now apply analyze_code_no_attempt.
  - rewrite analyze_code_attempts by exact Hcode. unfold range.
    replace (Z.to_nat (max_retries self)) with 0 by lia. reflexivity.
Qed.

Lemma analyze_code_no_retries_witness :
  analyze_code (flaky_client 0 (json_text "{'findings': [{}]}") 0)
    "x = 1" "python" "app.py" "security" []
  = ([], []).
Proof.
  now apply (analyze_code_no_retries
               (flaky_client 0 (json_text "{'findings': [{}]}") 0)).
Defined.





(** ** [_parse_api_response]: every shape of the decoded response *)

Lemma mapped_length file_path items :
  length (mapped file_path items) <= length items.
Proof.
  induction items as [|item items IH]; [reflexivity|].
  rewrite mapped_cons. destruct (_parse_finding item file_path); simpl; lia.
Qed.

Lemma mapped_length_well_formed file_path items :
  Forall (fun item => exists f, maps_to file_path item f) items ->
  length (mapped file_path items) = length items.
Proof.
  induction 1 as [|item items [f Hf] _ IH]; [reflexivity|].
  rewrite mapped_cons, Hf. simpl. now rewrite IH.
Qed.

Lemma mapped_not_dict file_path items :
  Forall (fun item => forall d, item <> PDict d) items ->
  mapped file_path items = [].
Proof.
  induction 1 as [|item items Hitem _ IH]; [reflexivity|].
  now rewrite mapped_cons, parse_finding_not_dict.
Qed.

Lemma mapped_elem file_path items f :
  f ∈ mapped file_path items ->
  exists item, item ∈ items /\ _parse_finding item file_path = Ok f.
Proof.
  induction items as [|item items IH]; [intros H; inversion H|].
  rewrite mapped_cons.
  destruct (_parse_finding item file_path) as [f'|e] eqn:Hitem.
  - intros [->|H]%elem_of_cons.
    + exists item. split; [left | exact Hitem].
    + destruct (IH H) as (item' & Hin & Hf). exists item'.
      split; [now right | exact Hf].
  - intros H. destruct (IH H) as (item' & Hin & Hf). exists item'.
    split; [now right | exact Hf].
Qed.

(** X6: whatever the number and the places of the malformed items of a
    findings array, the result is the list of the findings of the items
    whose mapping does not raise, in the order of the array: never more
    findings than items, and as many when every item is well formed. *)
Theorem parse_api_response_keeps_well_formed response file_path data items :
  json.loads (extract_json response) = Ok data ->
  findings_array data items ->
  _parse_api_response response file_path = Ok (mapped file_path items)
  /\ length (mapped file_path items) <= length items
  /\ (Forall (fun item => exists f, maps_to file_path item f) items ->
      length (mapped file_path items) = length items).
Proof.
  intros Hdata Harr. split; [|split].
  - now apply (parse_api_response_array response file_path data).
  - apply mapped_length.
  - apply mapped_length_well_formed.
Qed.

Lemma parse_api_response_keeps_well_formed_witness :
  fmap (M := list) message <$> _parse_api_response four_items "app.py"
  = Ok [PStr "a"; PStr "b"].
Proof.
  destruct (parse_api_response_keeps_well_formed four_items "app.py"
              (PDict [("findings",
                       PList [PDict [("severity", PInt 5)];
                              PDict [("message", PStr "a")];
                              PStr "note";
                              PDict [("message", PStr "b")]])])
              [PDict [("severity", PInt 5)];
               PDict [("message", PStr "a")];
               PStr "note";
               PDict [("message", PStr "b")]]) as (Hrun & _ & _).
  - reflexivity.
  - apply findings_field. reflexivity.
  - rewrite Hrun. reflexivity.
Defined.


Lemma chars_not_dict s : Forall (fun item => forall d, item <> PDict d) (chars s).
Proof. induction s; constructor; [discriminate | assumption]. Qed.

Lemma keys_not_dict (d : list (string * pyval)) :
  Forall (fun item => forall d', item <> PDict d') (PStr ∘ fst <$> d).
Proof. induction d; constructor; [discriminate | assumption]. Qed.

(** X8: the responses that give no finding without any error. When the
    decoded response is an object that has no findings field, or whose
    findings field is a string or an object, the result is the empty list:
    the characters of the string, or the keys of the object, are taken for
    the items, and none of them is a finding item. *)
Theorem parse_api_response_silently_empty response file_path d :
  json.loads (extract_json response) = Ok (PDict d) ->
  dict_lookup d "findings" = None
  \/ (exists s, dict_lookup d "findings" = Some (PStr s))
  \/ (exists d', dict_lookup d "findings" = Some (PDict d')) ->
  _parse_api_response response file_path = Ok [].
Proof.
  intros Hd Hfield. unfold _parse_api_response. rewrite Hd.
  cbn [mbind result_bind]. unfold dict_get.
  destruct Hfield as [->|[[s ->]|[d' ->]]]; simpl.
  - reflexivity.
  - now rewrite parse_each_mapped, mapped_not_dict by apply chars_not_dict.
  - now rewrite parse_each_mapped, mapped_not_dict by apply keys_not_dict.
Qed.

Lemma parse_api_response_silently_empty_witness :
  _parse_api_response
    (json_text "{'findings': {'F1': {'severity': 'high', 'message': 'm'}}}")
    "app.py"
  = Ok [].
Proof.
  eapply parse_api_response_silently_empty.
  - vm_compute. reflexivity.
  - right. right. eexists. vm_compute. reflexivity.
Defined.

Lemma parse_api_response_located response path findings :
  _parse_api_response response path = Ok findings ->
  Forall (fun f => file_path (location f) = path) findings.
Proof.
  intros Hrun.
  assert (Hcases : findings = [] \/ exists items, findings = mapped path items).
  { unfold _parse_api_response, try_except in Hrun.
    destruct (json.loads (extract_json response)) as [data|e];
      cbn [mbind result_bind] in Hrun.
    - destruct data as [| | | | |l|d]; try (left; congruence).
      + right. exists l. simpl in Hrun. rewrite parse_each_mapped in Hrun.
        now injection Hrun as <-.
      + cbv zeta in Hrun.
        destruct (py_iter (dict_get d "findings" (PList []))) as [items|e];
          cbn [mbind result_bind] in Hrun.
        2: { destruct (is_JSONDecodeError e); [|discriminate].
             left. now injection Hrun as <-. }
        right. exists items. simpl in Hrun.
        rewrite parse_each_mapped in Hrun. now injection Hrun as <-.
    - destruct (is_JSONDecodeError e); [|discriminate].
      left. now injection Hrun as <-. }
  destruct Hcases as [->|[items ->]]; [constructor|].
  apply Forall_forall. intros f Hf.
  apply mapped_elem in Hf as (item & _ & Hitem).
  destruct (parse_finding_cases item path)
    as [H|(d & s & t & _ & _ & _ & H)]; rewrite H in Hitem; [discriminate|].
  injection Hitem as <-. reflexivity.
Qed.

(** X9: every finding that [_parse_api_response] returns is located in the
    file whose path it was given. *)
Theorem parse_api_response_file_path response path findings :
  _parse_api_response response path = Ok findings ->
  Forall (fun f => file_path (location f) = path) findings.
Proof. apply parse_api_response_located. Qed.

Lemma parse_api_response_file_path_witness :
  fmap (M := list) (file_path ∘ location)
    <$> _parse_api_response three_items "src/app.py"
  = Ok ["src/app.py"; "src/app.py"].
Proof.
  destruct (_parse_api_response three_items "src/app.py") as [findings|e]
    eqn:Hrun; [|vm_compute in Hrun; discriminate].
  pose proof (parse_api_response_file_path _ _ _ Hrun) as Hall.
  vm_compute in Hrun.
  destruct findings as [|f1 [|f2 [|f3 rest]]]; try discriminate Hrun.
  inversion Hall as [|? ? H1 Hall1]; subst.
  inversion Hall1 as [|? ? H2 _]; subst.
  simpl. unfold compose. now rewrite H1, H2.
Defined.

(** ** [to_dict] read back *)

(** X10: [_parse_finding] applied to the [to_dict] form of a finding never
    raises and restores the type, the severity, the message, the
    remediation, the confidence, the snippet, the rule and the metadata; the
    position is not restored: [to_dict] nests it under the key location,
    where [_parse_finding] does not look, so the line and column fields come
    back [None] and the file path is the one passed. *)
Theorem parse_finding_to_dict f path :
  _parse_finding (Finding_to_dict f) path = Ok (without_position path f).
Proof.
  destruct f as [t s msg loc rem conf snip rule meta].
  destruct t, s; vm_compute; reflexivity.
Qed.

(** ** [filter_findings] *)

Lemma severity_order_rank s :
  default 4%Z (BaseReporter.severity_order !! s) = Z.of_nat (rank s).
Proof. destruct s; reflexivity. Qed.

Lemma filter_findings_findings m r :
  AnalysisResult.findings
    (BaseReporter.filter_findings {| BaseReporter.min_severity := Some m |} r)
  = filter (fun f => at_least m (severity f) = true) (AnalysisResult.findings r).
Proof.
  unfold BaseReporter.filter_findings. cbn.
  apply list_filter_iff. intros f. rewrite !severity_order_rank.
  unfold at_least. rewrite Nat.leb_le. lia.
Qed.

Lemma filter_findings_eq m r :
  BaseReporter.filter_findings {| BaseReporter.min_severity := Some m |} r
  = {| AnalysisResult.findings :=
         filter (fun f => at_least m (severity f) = true)
                (AnalysisResult.findings r);
       AnalysisResult.files_analyzed := AnalysisResult.files_analyzed r;
       AnalysisResult.total_lines := AnalysisResult.total_lines r;
       AnalysisResult.analysis_time_seconds :=
         AnalysisResult.analysis_time_seconds r;
       AnalysisResult.timestamp := AnalysisResult.timestamp r;
       AnalysisResult.metadata := AnalysisResult.metadata r |}.
Proof.
  rewrite <- filter_findings_findings. reflexivity.
Qed.

Lemma filter_severity_at_least m s (l : list Finding) :
  filter (fun f => severity f = s)
         (filter (fun f => at_least m (severity f) = true) l)
  = if at_least m s then filter (fun f => severity f = s) l else [].
Proof.
  rewrite list_filter_filter. destruct (at_least m s) eqn:Hs.
  - apply list_filter_iff. intros f. split; [tauto|].
    intros <-. split; [reflexivity | exact Hs].
  - induction l as [|f l IH]; [reflexivity|].
    rewrite filter_cons, IH. case_decide as Hf; [|reflexivity].
    destruct Hf as [<- Hf]. congruence.
Qed.

(** X11: when a reporter has a minimum severity, the summary of the result
    it filtered counts, for each severity, the findings of the unfiltered
    result when the severity is at least the minimum and 0 when it is not;
    its total is the number of findings kept, which is at most the
    unfiltered total; the numbers of files and of lines are the unfiltered
    ones. *)
Theorem filter_findings_summary self r m s :
  BaseReporter.min_severity self = Some m ->
  let kept := BaseReporter.filter_findings self r in
  AnalysisResult.findings_by_severity (AnalysisResult.get_summary kept)
    !! Severity_value s
  = Some (if at_least m s
          then length (AnalysisResult.get_findings_by_severity r s)
          else 0)
  /\ AnalysisResult.total_findings (AnalysisResult.get_summary kept)
     = length (filter (fun f => at_least m (severity f) = true)
                      (AnalysisResult.findings r))
  /\ AnalysisResult.total_findings (AnalysisResult.get_summary kept)
     <= AnalysisResult.total_findings (AnalysisResult.get_summary r)
  /\ AnalysisResult.summary_files_analyzed (AnalysisResult.get_summary kept)
     = AnalysisResult.files_analyzed r
  /\ AnalysisResult.summary_total_lines (AnalysisResult.get_summary kept)
     = AnalysisResult.total_lines r.
Proof.
  destruct self as [min]. cbn [BaseReporter.min_severity]. intros ->.
  cbv zeta. rewrite filter_findings_eq. split; [|split; [|split; [|split]]].
  - rewrite AnalysisResultFacts.get_summary_by_severity.
    unfold AnalysisResult.get_findings_by_severity. simpl.
    rewrite filter_severity_at_least. now destruct (at_least m s).
  - reflexivity.
  - simpl. apply length_filter.
  - reflexivity.
  - reflexivity.
Qed.

Lemma filter_findings_summary_witness :
  let r := {| AnalysisResult.findings :=
                without_position "a.py" <$>
                  mapped "a.py"
                    [PDict [("severity", PStr "low")];
                     PDict [("severity", PStr "critical")];
                     PDict [("severity", PStr "info")]];
              AnalysisResult.files_analyzed := 1;
              AnalysisResult.total_lines := 40;
              AnalysisResult.analysis_time_seconds := "0.5";
              AnalysisResult.timestamp := "2024-01-01T00:00:00";
              AnalysisResult.metadata := PDict [] |} in
  let kept :=
    BaseReporter.filter_findings {| BaseReporter.min_severity := Some LOW |} r in
  AnalysisResult.findings_by_severity (AnalysisResult.get_summary kept)
    !! "info" = Some 0
  /\ AnalysisResult.total_findings (AnalysisResult.get_summary kept) = 2
  /\ AnalysisResult.summary_total_lines (AnalysisResult.get_summary kept) = 40%Z.
Proof.
  intros r kept.
  destruct (filter_findings_summary {| BaseReporter.min_severity := Some LOW |}
              r LOW INFO eq_refl) as (Hinfo & Htotal & _ & _ & Hlines).
  split; [exact Hinfo|]. split; [|exact Hlines].
  subst kept. rewrite Htotal. vm_compute. reflexivity.
Defined.

(** X12: filtering a filtered result is filtering once by the stricter of
    the two minimum severities, whatever the order of the two reporters; in
    particular filtering twice with one reporter changes nothing more. *)
Theorem filter_findings_compose a b r :
  BaseReporter.filter_findings a (BaseReporter.filter_findings b r)
  = BaseReporter.filter_findings
      {| BaseReporter.min_severity :=
           stricter (BaseReporter.min_severity a) (BaseReporter.min_severity b) |}
      r
  /\ BaseReporter.filter_findings a (BaseReporter.filter_findings b r)
     = BaseReporter.filter_findings b (BaseReporter.filter_findings a r)
  /\ BaseReporter.filter_findings a (BaseReporter.filter_findings a r)
     = BaseReporter.filter_findings a r.
Proof.
  assert (Hcompose : forall x y,
    BaseReporter.filter_findings {| BaseReporter.min_severity := x |}
      (BaseReporter.filter_findings {| BaseReporter.min_severity := y |} r)
    = BaseReporter.filter_findings
        {| BaseReporter.min_severity := stricter x y |} r).
  { intros [x|] [y|]; try reflexivity.
    cbn [stricter]. rewrite !filter_findings_eq.
    cbn [AnalysisResult.findings AnalysisResult.files_analyzed
         AnalysisResult.total_lines AnalysisResult.analysis_time_seconds
         AnalysisResult.timestamp AnalysisResult.metadata].
    f_equal. rewrite list_filter_filter. apply list_filter_iff. intros f.
    destruct x, y, (severity f); vm_compute; intuition congruence. }
  destruct a as [x], b as [y]. simpl. split; [apply Hcompose|]. split.
  - rewrite !Hcompose. f_equal. f_equal.
    destruct x as [[]|], y as [[]|]; reflexivity.
  - rewrite Hcompose. f_equal. f_equal. destruct x as [[]|]; reflexivity.
Qed.

(** ** The severity option of the command line *)

(** X13: a value of the option [--severity] that is not one of critical,
    high, medium and low up to the case of letters is not refused: the
    reporter gets no minimum severity and reports every finding. The value
    info is such a value. *)
Theorem severity_enum_unrecognised s r :
  lower s ∉ ["critical"; "high"; "medium"; "low"] ->
  severity_enum (Some s) = None
  /\ BaseReporter.filter_findings
       {| BaseReporter.min_severity := severity_enum (Some s) |} r = r.
Proof.
  intros Hs. assert (H : severity_enum (Some s) = None).
  { unfold severity_enum. destruct (truthy s); [|reflexivity].
    cbv zeta. unfold list_to_map. cbn [foldr curry fst snd].
    rewrite !lookup_insert, lookup_empty.
    repeat case_decide; try reflexivity; exfalso; apply Hs;
      match goal with H : _ = lower s |- _ => rewrite <- H end;
      repeat constructor. }
  split; [exact H|]. now rewrite H.
Qed.

Lemma severity_enum_unrecognised_witness :
  let r := {| AnalysisResult.findings := mapped "a.py" [PDict []];
              AnalysisResult.files_analyzed := 1;
              AnalysisResult.total_lines := 40;
              AnalysisResult.analysis_time_seconds := "0.5";
              AnalysisResult.timestamp := "2024-01-01T00:00:00";
              AnalysisResult.metadata := PDict [] |} in
  severity_enum (Some "Info") = None
  /\ BaseReporter.filter_findings
       {| BaseReporter.min_severity := severity_enum (Some "Info") |} r = r.
Proof.
  intros r. apply (severity_enum_unrecognised "Info" r).
  change (lower "Info") with "info". intros H.
  repeat (apply elem_of_cons in H as [H|H]; [discriminate|]).
  now apply elem_of_nil in H.
Defined.

(** ** The statistics of the route *)

(** X14: the breakdown by severity that the route [/api/analyze] computes
    from the findings is the breakdown that [get_summary] gives for a result
    with the same findings: the same five keys, the same counts. *)
Theorem findings_by_severity_summary r :
  findings_by_severity (AnalysisResult.findings r)
  = AnalysisResult.findings_by_severity (AnalysisResult.get_summary r).
Proof.
  apply map_eq. intros k.
  unfold findings_by_severity, AnalysisResult.get_summary,
    AnalysisResult.get_findings_by_severity.
  cbn [AnalysisResult.findings_by_severity foldl Severity_members
       Severity_value list_to_map foldr curry fst snd].
  assert (Hfilter : forall s,
    filter (fun f => Severity_value (severity f) = Severity_value s)
           (AnalysisResult.findings r)
    = filter (fun f => severity f = s) (AnalysisResult.findings r)).
  { intros s. apply list_filter_iff. intros f.
    split; [|now intros ->]. now destruct (severity f), s. }
  rewrite <- !Hfilter. cbn [Severity_value].
  rewrite !lookup_insert, !lookup_empty.
  repeat case_decide; try reflexivity; congruence.
Qed.

(** ** [analyze_directory] *)

Lemma analyze_code_requests self code language file_name analysis_type trace :
  requests (analyze_code self code language file_name analysis_type trace).2
  <= requests trace + Z.to_nat (max_retries self).
Proof.
  destruct (all_space code) eqn:Hcode.
  - rewrite analyze_code_no_attempt by exact Hcode. simpl. lia.
  - rewrite analyze_code_attempts by exact Hcode. unfold range.
    destruct (attempts_shape self
                (get_prompt analysis_type file_name code language) file_name
                (Z.to_nat (max_retries self)) 0 trace)
      as (m & Hm & _ & ->); [lia|].
    rewrite requests_app, requests_failed_attempts. lia.
Qed.

Lemma attempts_located self prompt file_name todo : forall trace,
  Forall (fun f => file_path (location f) = file_name)
         (attempts self prompt file_name todo trace).1.
Proof.
  induction todo as [|attempt todo IH]; intros trace; [constructor|].
  cbn [attempts attempt_once].
  destruct (client self (requests trace) prompt) as [response|e];
    cbn [mbind result_bind].
  - destruct (content response) as [|response_text rest].
    + constructor.
    + destruct (_parse_api_response response_text file_name)
        as [findings|e] eqn:Hparse.
      * simpl. now apply parse_api_response_located in Hparse.
      * destruct (_ <? _)%Z; [apply IH | constructor].
  - destruct (_ <? _)%Z; [apply IH | constructor].
Qed.

Lemma analyze_code_located self code language file_name analysis_type trace :
  Forall (fun f => file_path (location f) = file_name)
         (analyze_code self code language file_name analysis_type trace).1.
Proof.
  unfold analyze_code. destruct (_ || _); [constructor|].
  apply attempts_located.
Qed.

Lemma analyze_files_spec self parser analysis_type files :
  forall all_findings files_analyzed total_lines trace,
  exists found trace',
    analyze_files self parser analysis_type files
      all_findings files_analyzed total_lines trace
    = ((all_findings ++ found,
        files_analyzed + Z.of_nat (length (omap (readable parser) files)),
        total_lines
        + sum (FileData.line_count <$> omap (readable parser) files))%Z,
       trace')
    /\ Forall (fun f => exists file file_data,
                 file ∈ files
                 /\ analyze_file parser file = Ok (Some file_data)
                 /\ file_path (location f) = FileData.path file_data) found
    /\ requests trace'
       <= requests trace
          + length (omap (readable parser) files)
            * Z.to_nat (max_retries self).
Proof.
  induction files as [|file files IH];
    intros all_findings files_analyzed total_lines trace.
  - exists [], trace. simpl. rewrite app_nil_r, !Z.add_0_r.
    split; [reflexivity|]. split; [constructor | lia].
  - cbn [analyze_files omap list_omap].
    pose proof (eq_refl (readable parser file)) as Hr. unfold readable at 2 in Hr.
    destruct (analyze_file parser file) as [[file_data|]|e] eqn:Hfile;
      rewrite !Hr; clear Hr.
    + destruct (analyze_code self (FileData.content file_data)
                  (FileData.language file_data) (FileData.path file_data)
                  analysis_type trace) as [findings trace1] eqn:Hcode.
      destruct (IH (all_findings ++ findings) (files_analyzed + 1)%Z
                  (total_lines + FileData.line_count file_data)%Z trace1)
        as (found & trace' & -> & Hfound & Hrequests).
      exists (findings ++ found), trace'. split; [|split].
      * rewrite <- app_assoc. cbn [length fmap list_fmap].
        replace (files_analyzed + 1
                 + Z.of_nat (length (omap (readable parser) files)))%Z
          with (files_analyzed
                + Z.of_nat (S (length (omap (readable parser) files))))%Z
          by lia.
        replace (total_lines + FileData.line_count file_data
                 + sum (FileData.line_count <$> omap (readable parser) files))%Z
          with (total_lines
                + sum (FileData.line_count file_data
                       :: (FileData.line_count <$>
                             omap (readable parser) files)))%Z
          by (unfold sum; simpl; lia).
        reflexivity.
      * apply Forall_app. split.
        -- pose proof (analyze_code_located self (FileData.content file_data)
                         (FileData.language file_data)
                         (FileData.path file_data) analysis_type trace) as H.
           rewrite Hcode in H. simpl in H.
           eapply Forall_impl; [exact H|]. intros f Hf.
           exists file, file_data. split; [left|]. now split.
        -- eapply Forall_impl; [exact Hfound|].
           intros f (file' & file_data' & Hin & Hdata & Hpath).
           exists file', file_data'. split; [now right|]. now split.
      * pose proof (analyze_code_requests self (FileData.content file_data)
                      (FileData.language file_data) (FileData.path file_data)
                      analysis_type trace) as H.
        rewrite Hcode in H. simpl in H. simpl. lia.
    + destruct (IH all_findings files_analyzed total_lines trace)
        as (found & trace' & -> & Hfound & Hrequests).
      exists found, trace'. split; [reflexivity|]. split.
      * eapply Forall_impl; [exact Hfound|].
        intros f (file' & file_data' & Hin & Hdata & Hpath).
        exists file', file_data'. split; [now right|]. now split.
      * simpl. lia.
    + destruct (IH all_findings files_analyzed total_lines trace)
        as (found & trace' & -> & Hfound & Hrequests).
      exists found, trace'. split; [reflexivity|]. split.
      * eapply Forall_impl; [exact Hfound|].
        intros f (file' & file_data' & Hin & Hdata & Hpath).
        exists file', file_data'. split; [now right|]. now split.
      * simpl. lia.
Qed.

Lemma readable_length parser files :
  length (omap (readable parser) files) <= length files.
Proof.
  induction files as [|file files IH]; [reflexivity|].
  cbn [omap list_omap]. destruct (readable parser file); simpl; lia.
Qed.

Lemma analyze_directory_spec
    self directory analysis_type parser analysis_time timestamp trace files :
  get_files_to_analyze parser directory = Ok files ->
  exists r trace',
    analyze_directory self directory analysis_type parser analysis_time
      timestamp trace = (Ok r, trace')
    /\ AnalysisResult.files_analyzed r
       = Z.of_nat (length (omap (readable parser) files))
    /\ AnalysisResult.total_lines r
       = sum (FileData.line_count <$> omap (readable parser) files)
    /\ Forall (fun f => exists file file_data,
                 file ∈ files
                 /\ analyze_file parser file = Ok (Some file_data)
                 /\ file_path (location f) = FileData.path file_data)
              (AnalysisResult.findings r)
    /\ requests trace'
       <= requests trace
          + length (omap (readable parser) files)
            * Z.to_nat (max_retries self).
Proof.
  intros Hfiles. unfold analyze_directory. rewrite Hfiles.
  destruct (analyze_files_spec self parser analysis_type files [] 0%Z 0%Z trace)
    as (found & trace' & -> & Hfound & Hrequests).
  eexists _, trace'. split; [reflexivity|]. simpl.
  split; [reflexivity|]. split; [reflexivity|]. split; assumption.
Qed.

(** X15: when the parser lists the files of the directory,
    [analyze_directory] returns a result, whatever happens with each file:
    a file that [analyze_file] raises on or gives nothing for is passed
    over, and [files_analyzed] and [total_lines] count exactly the other
    files of the list, those with blank content included, and the lines the
    parser counted in them. *)
Theorem analyze_directory_counts
    self directory analysis_type parser analysis_time timestamp trace files :
  get_files_to_analyze parser directory = Ok files ->
  exists r,
    (analyze_directory self directory analysis_type parser analysis_time
       timestamp trace).1 = Ok r
    /\ AnalysisResult.files_analyzed r
       = Z.of_nat (length (omap (readable parser) files))
    /\ AnalysisResult.total_lines r
       = sum (FileData.line_count <$> omap (readable parser) files)
    /\ (AnalysisResult.files_analyzed r <= Z.of_nat (length files))%Z.
Proof.
  intros Hfiles.
  destruct (analyze_directory_spec self directory analysis_type parser
              analysis_time timestamp trace files Hfiles)
    as (r & trace' & -> & Hcount & Hlines & _ & _).
  exists r. split; [reflexivity|]. split; [exact Hcount|].
  split; [exact Hlines|]. rewrite Hcount. apply inj_le, readable_length.
Qed.

Lemma analyze_directory_counts_witness :
  exists r,
    (analyze_directory (constant_client three_items) "/src" "security"
       three_files "0.5" "2024-01-01T00:00:00" []).1 = Ok r
    /\ AnalysisResult.files_analyzed r = 2%Z
    /\ AnalysisResult.total_lines r = 3%Z.
Proof.
  destruct (analyze_directory_counts (constant_client three_items) "/src"
              "security" three_files "0.5" "2024-01-01T00:00:00" []
              ["locked.py"; "blank.py"; "app.py"] eq_refl)
    as (r & Hr & Hcount & Hlines & _).
  exists r. split; [exact Hr|]. split; [exact Hcount | exact Hlines].
Defined.

(** X16: [analyze_directory] sends at most [max_retries] requests for each
    file that the parser reads, and none for the others. *)
Theorem analyze_directory_requests
    self directory analysis_type parser analysis_time timestamp trace files :
  get_files_to_analyze parser directory = Ok files ->
  requests (analyze_directory self directory analysis_type parser
              analysis_time timestamp trace).2
  <= requests trace
     + length (omap (readable parser) files) * Z.to_nat (max_retries self).
Proof.
  intros Hfiles.
  destruct (analyze_directory_spec self directory analysis_type parser
              analysis_time timestamp trace files Hfiles)
    as (r & trace' & -> & _ & _ & _ & Hrequests).
  exact Hrequests.
Qed.

Lemma analyze_directory_requests_witness :
  requests (analyze_directory (failing_client 3) "/src" "security"
              three_files "0.5" "2024-01-01T00:00:00" []).2 <= 0 + 2 * 3.
Proof.
  apply (analyze_directory_requests (failing_client 3) "/src" "security"
           three_files "0.5" "2024-01-01T00:00:00" []
           ["locked.py"; "blank.py"; "app.py"] eq_refl).
Defined.

(** X17: every finding of the result of [analyze_directory] is located in
    a file that the parser listed and read: its file path is the path that
    [analyze_file] gave for that file. *)
Theorem analyze_directory_located
    self directory analysis_type parser analysis_time timestamp trace files r :
  get_files_to_analyze parser directory = Ok files ->
  (analyze_directory self directory analysis_type parser analysis_time
     timestamp trace).1 = Ok r ->
  Forall (fun f => exists file file_data,
            file ∈ files
            /\ analyze_file parser file = Ok (Some file_data)
            /\ file_path (location f) = FileData.path file_data)
         (AnalysisResult.findings r).
Proof.
  intros Hfiles.
  destruct (analyze_directory_spec self directory analysis_type parser
              analysis_time timestamp trace files Hfiles)
    as (r' & trace' & -> & _ & _ & Hfound & _).
  simpl. now intros [= <-].
Qed.

Lemma analyze_directory_located_witness :
  exists r,
    (analyze_directory (constant_client three_items) "/src" "security"
       three_files "0.5" "2024-01-01T00:00:00" []).1 = Ok r
    /\ length (AnalysisResult.findings r) = 2
    /\ Forall (fun f => exists file file_data,
                 file ∈ ["locked.py"; "blank.py"; "app.py"]
                 /\ analyze_file three_files file = Ok (Some file_data)
                 /\ file_path (location f) = FileData.path file_data)
              (AnalysisResult.findings r).
Proof.
  destruct (analyze_directory (constant_client three_items) "/src" "security"
              three_files "0.5" "2024-01-01T00:00:00" []).1
    as [r|e] eqn:Hrun; [|vm_compute in Hrun; discriminate].
  exists r. split; [reflexivity|]. split.
  - vm_compute in Hrun. injection Hrun as <-. reflexivity.
  - apply (analyze_directory_located (constant_client three_items) "/src"
             "security" three_files "0.5" "2024-01-01T00:00:00" []
             ["locked.py"; "blank.py"; "app.py"] r eq_refl Hrun).
Defined.

Lemma analyze_files_skips self parser parser' analysis_type files :
  analyze_file parser' = analyze_file parser ->
  forall all_findings files_analyzed total_lines trace,
    analyze_files self parser' analysis_type
      (filter (fun file => is_Some (readable parser file)) files)
      all_findings files_analyzed total_lines trace
    = analyze_files self parser analysis_type files
        all_findings files_analyzed total_lines trace.
Proof.
  intros Hsame. induction files as [|file files IH];
    intros all_findings files_analyzed total_lines trace; [reflexivity|].
  pose proof (eq_refl (readable parser file)) as Hr.
  unfold readable at 2 in Hr. rewrite filter_cons.
  cbn [analyze_files].
  destruct (analyze_file parser file) as [[file_data|]|e] eqn:Hfile.
  - rewrite decide_True by (rewrite Hr; now exists file_data).
    cbn [analyze_files]. rewrite Hsame, Hfile.
    destruct (analyze_code _ _ _ _ _ _) as [findings trace1]. apply IH.
  - rewrite decide_False by (rewrite Hr; now intros [? [=]]). apply IH.
  - rewrite decide_False by (rewrite Hr; now intros [? [=]]). apply IH.
Qed.

(** X18: the files that the parser cannot read change nothing: a run over
    the files listed gives the result and the trace of the run over the
    list without the files that [analyze_file] raises on or gives nothing
    for. One such file stops neither the files before it nor those
    after. *)
Theorem analyze_directory_skips_unreadable
    self directory analysis_type parser parser' analysis_time timestamp trace
    files :
  get_files_to_analyze parser directory = Ok files ->
  get_files_to_analyze parser' directory
  = Ok (filter (fun file => is_Some (readable parser file)) files) ->
  analyze_file parser' = analyze_file parser ->
  analyze_directory self directory analysis_type parser' analysis_time
    timestamp trace
  = analyze_directory self directory analysis_type parser analysis_time
      timestamp trace.
Proof.
  intros Hfiles Hfiles' Hsame. unfold analyze_directory.
  rewrite Hfiles, Hfiles', analyze_files_skips by exact Hsame. reflexivity.
Qed.

Lemma analyze_directory_skips_unreadable_witness :
  analyze_directory (constant_client three_items) "/src" "security"
    {| get_files_to_analyze := fun _ => Ok ["blank.py"; "app.py"];
       analyze_file := analyze_file three_files |}
    "0.5" "2024-01-01T00:00:00" []
  = analyze_directory (constant_client three_items) "/src" "security"
      three_files "0.5" "2024-01-01T00:00:00" [].
Proof.
  apply (analyze_directory_skips_unreadable (constant_client three_items)
           "/src" "security" three_files _ "0.5" "2024-01-01T00:00:00" []
           ["locked.py"; "blank.py"; "app.py"]); reflexivity.
Defined.

(** ** The text handed to the decoder *)

Section MatcherSound.
Context {R : Type}.

Lemma star_sound p greedy s : forall (k : cont (R := R)) x,
  star p greedy s k = Some x ->
  exists t rest,
    s = t +:+ rest /\ every p t = true /\ k t None rest = Some x.
Proof.
  induction s as [|c s IH]; intros k x H.
  - exists EmptyString, EmptyString. auto.
  - cbn [star] in H. destruct (p c) eqn:Hc.
    + assert (Hor :
        star p greedy s (fun t g rest => k (String c t) g rest) = Some x
        \/ k EmptyString None (String c s) = Some x).
      { destruct greedy; unfold or_else in H;
          destruct (star p _ s _) eqn:Hmore;
          destruct (k EmptyString None (String c s)) eqn:Hk; auto;
          discriminate. }
      destruct Hor as [Hmore|Hk].
      * apply IH in Hmore as (t & rest & -> & Ht & Hk).
        exists (String c t), rest. rewrite append_cons. simpl.
        rewrite Hc, Ht. auto.
      * exists EmptyString, (String c s). auto.
    + exists EmptyString, (String c s). auto.
Qed.

Lemma rmatch_sound r : forall s (k : cont (R := R)) x,
  rmatch r s k = Some x ->
  exists t g rest,
    s = t +:+ rest /\ matches r t g /\ k t g rest = Some x.
Proof.
  induction r as [c|r1 IH1 r2 IH2|r IH|p greedy|r IH]; intros s k x H;
    cbn [rmatch] in H.
  - destruct s as [|a s]; [discriminate|].
    case_decide as Ha; [|discriminate]. subst a.
    exists (String c EmptyString), None, s.
    split; [reflexivity|]. split; [constructor | exact H].
  - apply IH1 in H as (t1 & g1 & s1 & -> & H1 & H).
    apply IH2 in H as (t2 & g2 & s2 & -> & H2 & H).
    exists (t1 +:+ t2), (from_option Some g1 g2), s2.
    split; [now rewrite append_assoc|]. split; [now constructor | exact H].
  - unfold or_else in H. destruct (rmatch r s k) eqn:Hr.
    + injection H as ->. apply IH in Hr as (t & g & rest & -> & Hm & Hk).
      exists t, g, rest. split; [reflexivity|].
      split; [now apply matches_Opt_some | exact Hk].
    + exists EmptyString, None, s. split; [reflexivity|].
      split; [constructor | exact H].
  - apply star_sound in H as (t & rest & -> & Ht & Hk).
    exists t, None, rest. split; [reflexivity|].
    split; [now constructor | exact Hk].
  - apply IH in H as (t & g & rest & -> & Hm & Hk).
    exists t, (Some t), rest. split; [reflexivity|].
    split; [now apply matches_Grp with g | exact Hk].
Qed.

End MatcherSound.

Lemma re_search_sound r s : forall m,
  re_search r s = Some m ->
  exists pre post,
    s = pre +:+ group0 m +:+ post /\ matches r (group0 m) (group1 m).
Proof.
  induction s as [|c s IH]; intros m H; cbn [re_search] in H.
  - destruct (match_here r EmptyString) as [m'|] eqn:Hm; [|discriminate].
    injection H as ->. apply rmatch_sound in Hm as (t & g & rest & Hs & Hm & Hk).
    injection Hk as <-. exists EmptyString, rest. auto.
  - destruct (match_here r (String c s)) as [m'|] eqn:Hm.
    + injection H as ->.
      apply rmatch_sound in Hm as (t & g & rest & Hs & Hm & Hk).
      injection Hk as <-. exists EmptyString, rest. auto.
    + apply IH in H as (pre & post & -> & Hm').
      exists (String c pre), post. auto.
Qed.

Lemma matches_lit c s : forall t g,
  matches (lit c s) t g -> t = String c s /\ g = None.
Proof.
  revert c. induction s as [|c' s IH]; intros c t g H; cbn [lit] in H.
  - inversion H; subst. auto.
  - inversion H as [|r1 r2 t1 g1 t2 g2 H1 H2| | | |]; subst.
    inversion H1; subst. apply IH in H2 as [-> ->]. auto.
Qed.

Lemma matches_braced p greedy t g :
  matches (Cat (Chr "{") (Cat (Star p greedy) (Chr "}"))) t g ->
  g = None /\ exists body, t = "{" +:+ body +:+ "}".
Proof.
  intros H.
  inversion H as [|r1 r2 t1 g1 t2 g2 H1 H2| | | |]; subst.
  inversion H1; subst.
  inversion H2 as [|r1 r2 t3 g3 t4 g4 H3 H4| | | |]; subst.
  inversion H3; subst. inversion H4; subst.
  split; [reflexivity|]. now exists t3.
Qed.

Lemma matches_fence_re t g :
  matches fence_re t g ->
  exists a body b,
    t = a +:+ "{" +:+ body +:+ "}" +:+ b
    /\ g = Some ("{" +:+ body +:+ "}").
Proof.
  intros H. unfold fence_re in H.
  inversion H as [|r1 r2 t1 g1 t2 g2 H1 H2| | | |]; subst. clear H.
  apply matches_lit in H1 as [-> ->].
  inversion H2 as [|r1 r2 t3 g3 t4 g4 H3 H4| | | |]; subst. clear H2.
  inversion H4 as [|r1 r2 t5 g5 t6 g6 H5 H6| | | |]; subst. clear H4.
  inversion H5; subst. clear H5.
  inversion H6 as [|r1 r2 t7 g7 t8 g8 H7 H8| | | |]; subst. clear H6.
  inversion H7 as [| | | | |r t g H9]; subst. clear H7.
  apply matches_braced in H9 as [_ [body ->]].
  inversion H8 as [|r1 r2 t9 g9 t10 g10 H9 H10| | | |]; subst. clear H8.
  inversion H9; subst. apply matches_lit in H10 as [-> ->].
  exists ("```" +:+ t3 +:+ t5), body, (t9 +:+ "```").
  split; [|reflexivity]. rewrite !append_assoc. reflexivity.
Qed.

Lemma no_char_here c a b : no_char c (a +:+ String c b) = false.
Proof.
  induction a as [|x a IH].
  - rewrite append_nil_l. cbn [no_char].
    now rewrite bool_decide_eq_true_2.
  - rewrite append_cons. cbn [no_char]. rewrite IH. apply andb_false_r.
Qed.

Lemma brace_pair_intro pre body post :
  brace_pair (pre +:+ "{" +:+ body +:+ "}" +:+ post) = true.
Proof.
  unfold brace_pair. apply negb_true_iff.
  induction pre as [|c pre IH].
  - rewrite append_nil_l. change ("{" +:+ body +:+ "}" +:+ post)
      with (String "{" (body +:+ String "}" post)).
    cbn [after_open]. rewrite decide_True by reflexivity.
    apply no_char_here.
  - rewrite append_cons. cbn [after_open]. case_decide; [|exact IH].
    replace (pre +:+ "{" +:+ body +:+ "}" +:+ post)
      with ((pre +:+ "{" +:+ body) +:+ String "}" post)
      by (rewrite !append_assoc; reflexivity).
    apply no_char_here.
Qed.

Lemma after_open_split s :
  (no_char "{" s = true /\ after_open s = EmptyString)
  \/ exists a, s = a +:+ "{" +:+ after_open s /\ no_char "{" a = true.
Proof.
  induction s as [|c s IH]; [left; auto|].
  cbn [after_open no_char]. case_decide as Hc.
  - right. exists EmptyString. subst c. auto.
  - rewrite bool_decide_eq_false_2 by exact Hc.
    destruct IH as [[Hs ->]|(a & Hs & Ha)]; [left; auto|].
    right. exists (String c a). rewrite append_cons, <- Hs.
    split; [reflexivity|]. simpl.
    now rewrite bool_decide_eq_false_2 by exact Hc.
Qed.

Lemma last_split c s :
  no_char c s = false ->
  exists b d, s = b +:+ String c d /\ no_char c d = true.
Proof.
  induction s as [|x s IH]; [discriminate|]. cbn [no_char]. intros H.
  destruct (no_char c s) eqn:Hs.
  - rewrite andb_true_r in H. apply negb_false_iff in H.
    apply bool_decide_eq_true_1 in H as ->.
    exists EmptyString, s. auto.
  - destruct (IH eq_refl) as (b & d & -> & Hd).
    exists (String x b), d. auto.
Qed.

Lemma search_brace_complete s :
  brace_pair s = true -> exists m, re_search brace_re s = Some m.
Proof.
  unfold brace_pair. intros H. apply negb_true_iff in H.
  destruct (after_open_split s) as [[_ Hnone]|(a & Hs & Ha)].
  { rewrite Hnone in H. discriminate. }
  apply last_split in H as (b & d & Hrest & Hd).
  rewrite Hs, Hrest, search_brace_skip by exact Ha.
  eexists. apply re_search_here.
  change ("{" +:+ b +:+ String "}" d) with ("{" +:+ b +:+ "}" +:+ d).
  now apply brace_span_matches.
Qed.

Lemma extract_json_cases response :
  match brace_pair response with
  | true =>
      exists pre body post,
        response = pre +:+ "{" +:+ body +:+ "}" +:+ post
        /\ extract_json response = "{" +:+ body +:+ "}"
  | false => extract_json response = response
  end.
Proof.
  unfold extract_json.
  destruct (re_search fence_re response) as [m|] eqn:Hfence.
  - apply re_search_sound in Hfence as (pre & post & Hs & Hm).
    apply matches_fence_re in Hm as (a & body & b & Ht & Hg).
    assert (Hresponse :
      response = (pre +:+ a) +:+ "{" +:+ body +:+ "}" +:+ (b +:+ post)).
    { rewrite Hs, Ht, !append_assoc. reflexivity. }
    assert (Hpair : brace_pair response = true)
      by (rewrite Hresponse; apply brace_pair_intro).
    rewrite Hg, Hpair. exists (pre +:+ a), body, (b +:+ post).
    split; [exact Hresponse | reflexivity].
  - destruct (brace_pair response) eqn:Hpair.
    + destruct (search_brace_complete response Hpair) as [m Hbrace].
      rewrite Hbrace.
      apply re_search_sound in Hbrace as (pre & post & Hs & Hm).
      apply matches_braced in Hm as [_ [body Ht]].
      exists pre, body, post. rewrite Hs, Ht, !append_assoc. auto.
    + destruct (re_search brace_re response) as [m|] eqn:Hbrace;
        [|reflexivity].
      apply re_search_sound in Hbrace as (pre & post & Hs & Hm).
      apply matches_braced in Hm as [_ [body Ht]].
      rewrite Hs, Ht in Hpair.
      replace (pre +:+ ("{" +:+ body +:+ "}") +:+ post)
        with (pre +:+ "{" +:+ body +:+ "}" +:+ post) in Hpair
        by (rewrite !append_assoc; reflexivity).
      rewrite brace_pair_intro in Hpair. discriminate.
Qed.


(** ** A reply that is a bare array *)

Lemma between_cases c k ts :
  json.between c k = Some ts ->
  (exists m, k m = Some ts)
  \/ exists t ts',
       json.punctuation c = Some t /\ k json.Between = Some ts'
       /\ ts = t :: ts'.
Proof.
  unfold json.between. destruct (json.is_ws c); [eauto|].
  destruct (json.punctuation c) as [t|].
  - destruct (k json.Between) as [ts'|] eqn:Hk; [|discriminate].
    intros [= <-]. right. eauto.
  - case_decide; [eauto|]. destruct (json.is_word c); [eauto | discriminate].
Qed.

(** One character read: the tokens are those of the rest of the text in
    some mode, after at most a value and the punctuation character read. *)
Lemma lex_cons m c s ts :
  json.lex m (String c s) = Some ts ->
  exists pre m' ts',
    json.lex m' s = Some ts' /\ ts = pre ++ ts'
    /\ Forall (fun t => (exists v, t = json.TValue v)
                        \/ json.punctuation c = Some t) pre.
Proof.
  assert (Hnone : forall m',
    json.lex m' s = Some ts ->
    exists pre m' ts',
      json.lex m' s = Some ts' /\ ts = pre ++ ts'
      /\ Forall (fun t => (exists v, t = json.TValue v)
                          \/ json.punctuation c = Some t) pre).
  { intros m' H. exists [], m', ts. auto. }
  destruct m as [|w|acc|acc|acc n todo]; cbn [json.lex].
  - intros H. apply between_cases in H as [[m' H]|(t & ts' & Ht & H & ->)].
    + now apply Hnone with m'.
    + exists [t], json.Between, ts'. split; [exact H|].
      split; [reflexivity|]. constructor; [now right | constructor].
  - destruct (json.is_word c); [apply Hnone|].
    destruct (json.word_value w) as [v|]; [|discriminate].
    cbn [mbind option_bind].
    destruct (json.between c _) as [ts0|] eqn:Hb; [|discriminate].
    intros [= <-].
    apply between_cases in Hb as [[m' H]|(t & ts' & Ht & H & ->)].
    + exists [json.TValue v], m', ts0. split; [exact H|].
      split; [reflexivity|]. constructor; [left; eauto | constructor].
    + exists [json.TValue v; t], json.Between, ts'. split; [exact H|].
      split; [reflexivity|].
      constructor; [left; eauto|]. constructor; [now right | constructor].
  - case_decide.
    { destruct (json.lex json.Between s) as [ts'|] eqn:H'; [|discriminate].
      intros [= <-]. exists [json.TValue (PStr acc)], json.Between, ts'.
      split; [exact H'|]. split; [reflexivity|].
      constructor; [left; eauto | constructor]. }
    case_decide; [apply Hnone|].
    destruct (_ <? _)%nat; [discriminate | apply Hnone].
  - case_decide; [apply Hnone|].
    destruct (json.escape c) as [e|]; [|discriminate]. apply Hnone.
  - destruct (json.hex_digit c) as [d|]; [|discriminate].
    cbn [mbind option_bind]. cbv zeta.
    destruct todo as [|[|todo]]; apply Hnone.
Qed.

Lemma lex_nil m ts :
  json.lex m EmptyString = Some ts ->
  ts = [] \/ exists v, ts = [json.TValue v].
Proof.
  destruct m; cbn [json.lex]; try discriminate.
  - intros [= <-]. auto.
  - destruct (json.word_value w) as [v|]; [|discriminate].
    intros [= <-]. eauto.
Qed.

Lemma punctuation_close c : json.punctuation c = Some json.TRBrace -> c = "}"%char.
Proof.
  unfold json.punctuation. repeat case_decide; congruence.
Qed.

Lemma punctuation_open c : json.punctuation c = Some json.TLBrace -> c = "{"%char.
Proof.
  unfold json.punctuation. repeat case_decide; congruence.
Qed.

Lemma no_close_app pre ts :
  Forall (fun t => t <> json.TRBrace) pre ->
  no_close (pre ++ ts) = no_close ts.
Proof.
  induction 1 as [|t pre Ht _ IH]; [reflexivity|].
  simpl. now destruct t.
Qed.

Lemma no_close_after_open_app pre ts :
  Forall (fun t => t <> json.TLBrace) pre ->
  no_close_after_open (pre ++ ts) = no_close_after_open ts.
Proof.
  induction 1 as [|t pre Ht _ IH]; [reflexivity|].
  simpl. now destruct t.
Qed.

Lemma no_close_weaken ts : no_close ts = true -> no_close_after_open ts = true.
Proof.
  induction ts as [|t ts IH]; [reflexivity|].
  destruct t; simpl; auto. discriminate.
Qed.

Lemma lex_no_close s : forall m ts,
  no_char "}" s = true -> json.lex m s = Some ts -> no_close ts = true.
Proof.
  induction s as [|c s IH]; intros m ts Hs H.
  - now apply lex_nil in H as [->|[v ->]].
  - apply no_char_cons in Hs as [Hc Hs].
    apply lex_cons in H as (pre & m' & ts' & H & -> & Hpre).
    rewrite no_close_app; [now apply (IH m')|].
    eapply Forall_impl; [exact Hpre|]. intros t [[v ->]|Ht]; [discriminate|].
    intros ->. now apply punctuation_close in Ht.
Qed.

Lemma lex_no_close_after_open s : forall m ts,
  no_char "}" (after_open s) = true -> json.lex m s = Some ts ->
  no_close_after_open ts = true.
Proof.
  induction s as [|c s IH]; intros m ts Hs H.
  - now apply lex_nil in H as [->|[v ->]].
  - apply lex_cons in H as (pre & m' & ts' & H & -> & Hpre).
    cbn [after_open] in Hs. case_decide as Hc.
    + apply no_close_weaken. rewrite no_close_app; [now apply (lex_no_close s m')|].
      eapply Forall_impl; [exact Hpre|].
      intros t [[v ->]|Ht]; [discriminate|].
      intros ->. apply punctuation_close in Ht. congruence.
    + rewrite no_close_after_open_app; [now apply (IH m')|].
      eapply Forall_impl; [exact Hpre|].
      intros t [[v ->]|Ht]; [discriminate|].
      intros ->. now apply punctuation_open in Ht.
Qed.

Lemma word_value_scalar w v : json.word_value w = Some v -> scalar v.
Proof.
  unfold json.word_value. repeat case_decide; try (now intros [= <-]).
  unfold json.number. destruct w as [|c w]; [discriminate|].
  assert (Hnum : forall neg w' s,
    json.unsigned_number neg w' s = Some v -> scalar v).
  { intros neg w' s. unfold json.unsigned_number.
    destruct s as [|c' s]; [discriminate|].
    destruct (negb _); [discriminate|].
    destruct (if bool_decide (c' = "0"%char) then _ else _) as [n rest].
    destruct (json.after_int rest) as [[] []]; try discriminate;
      now intros [= <-]. }
  destruct (bool_decide _); apply Hnum.
Qed.

Lemma lex_scalars s : forall m ts, json.lex m s = Some ts -> scalars ts.
Proof.
  assert (Hbetween : forall c k ts,
    (forall m ts, k m = Some ts -> scalars ts) ->
    json.between c k = Some ts -> scalars ts).
  { intros c k ts Hk H.
    apply between_cases in H as [[m' H]|(t & ts' & Ht & H & ->)];
      [now apply Hk with m'|].
    constructor; [|now apply Hk with json.Between].
    intros v ->. unfold json.punctuation in Ht.
    repeat case_decide; discriminate. }
  induction s as [|c s IH]; intros m ts H.
  - destruct m as [|w| | |]; cbn [json.lex] in H; try discriminate.
    + injection H as <-. constructor.
    + destruct (json.word_value w) as [v|] eqn:Hw; [|discriminate].
      injection H as <-. constructor; [|constructor].
      intros ? [= <-]. now apply word_value_scalar in Hw.
  - destruct m as [|w|acc|acc|acc n todo]; cbn [json.lex] in H.
    + now apply Hbetween in H.
    + destruct (json.is_word c); [now apply IH in H|].
      destruct (json.word_value w) as [v|] eqn:Hw; [|discriminate].
      cbn [mbind option_bind] in H.
      destruct (json.between c _) as [ts0|] eqn:Hb; [|discriminate].
      injection H as <-. constructor; [|now apply Hbetween in Hb].
      intros ? [= <-]. now apply word_value_scalar in Hw.
    + case_decide.
      { destruct (json.lex json.Between s) as [ts'|] eqn:H'; [|discriminate].
        injection H as <-. constructor; [|now apply IH in H'].
        now intros ? [= <-]. }
      case_decide; [now apply IH in H|].
      destruct (_ <? _)%nat; [discriminate | now apply IH in H].
    + case_decide; [now apply IH in H|].
      destruct (json.escape c) as [e|]; [|discriminate]. now apply IH in H.
    + destruct (json.hex_digit c) as [d|]; [|discriminate].
      cbn [mbind option_bind] in H. cbv zeta in H.
      destruct todo as [|[|todo]]; now apply IH in H.
Qed.

Lemma step_inv s t s' : json.step s t = Some s' -> steps_to s t s'.
Proof.
  intros H. unfold json.step in H.
  repeat case_match; simplify_eq; constructor.
Qed.

Lemma step_open s t s' :
  open_dict s -> t <> json.TRBrace -> json.step s t = Some s' ->
  open_dict s'.
Proof.
  intros Ho Ht H. apply step_inv in H.
  destruct H; cbn [open_dict] in *; try exact I; try congruence;
    rewrite ?Exists_cons in *; cbn [is_FDict] in *; intuition discriminate.
Qed.

Lemma run_open ts : forall s s',
  open_dict s -> no_close ts = true -> json.run s ts = Some s' ->
  open_dict s'.
Proof.
  induction ts as [|t ts IH]; intros s s' Ho Hts H; cbn [json.run] in H.
  - now injection H as <-.
  - destruct (json.step s t) as [s1|] eqn:Hstep; [|discriminate].
    cbn [mbind option_bind] in H.
    assert (Ht : t <> json.TRBrace) by (intros ->; discriminate).
    apply (IH s1); [now apply step_open with s t | | exact H].
    now destruct t.
Qed.

Lemma step_plain s t s' :
  plain s -> t <> json.TLBrace -> (forall v, t = json.TValue v -> scalar v) ->
  json.step s t = Some s' -> plain s'.
Proof.
  intros Hp Ht Hv H. apply step_inv in H.
  destruct H; cbn [plain] in *; try contradiction; try congruence;
    rewrite ?Forall_cons in *; cbn [plain_frame] in *.
  - specialize (Hv v eq_refl). split; [intros d ->; exact Hv|].
    split; [intros items ->; contradiction | exact Hp].
  - split; [constructor | exact Hp].
  - split; [discriminate|]. split; [now intros ? [= <-] | tauto].
  - split; [|tauto]. apply Forall_app. split; [tauto|].
    constructor; [tauto | constructor].
  - split; [discriminate|]. split; [|tauto]. intros ? [= <-].
    apply Forall_app. split; [tauto|]. constructor; [tauto | constructor].
  - tauto.
  - tauto.
Qed.

Lemma run_plain ts : forall s v,
  plain s -> scalars ts -> no_close_after_open ts = true ->
  json.run s ts = Some (json.SAfter v []) ->
  forall items, v = PList items -> Forall not_dict items.
Proof.
  induction ts as [|t ts IH]; intros s v Hp Hs Hts H; cbn [json.run] in H.
  - injection H as ->. now destruct Hp as (_ & Hv & _).
  - destruct (json.step s t) as [s1|] eqn:Hstep; [|discriminate].
    cbn [mbind option_bind] in H.
    apply Forall_cons in Hs as [Ht Hs].
    assert (Hcases : t = json.TLBrace \/ t <> json.TLBrace)
      by (destruct t; auto; right; discriminate).
    destruct Hcases as [->|Hopen].
    + exfalso. cbn [no_close_after_open] in Hts.
      assert (Ho : open_dict s1).
      { unfold json.step in Hstep.
        repeat case_match; simplify_eq; exact I. }
      apply (run_open ts s1 _ Ho Hts) in H. cbn [open_dict] in H.
      now apply Exists_nil in H.
    + apply (IH s1); [now apply step_plain with s t | exact Hs | | exact H].
      now destruct t.
Qed.

Lemma bottom_dict_cons f st :
  st <> [] -> bottom_dict (f :: st) = bottom_dict st.
Proof. now destruct st. Qed.

Lemma bottom_dict_nil f : bottom_dict [f] = is_FDict f.
Proof. reflexivity. Qed.

Lemma bottom_dict_nonempty st : bottom_dict st = true -> st <> [].
Proof. now intros H ->. Qed.

Lemma bottom_dict_list items st :
  bottom_dict (json.FList items :: st) = true ->
  st <> [] /\ bottom_dict st = true.
Proof.
  destruct st as [|f st]; [discriminate|].
  intros H. split; [discriminate | exact H].
Qed.

Lemma bottom_dict_dict d key st :
  bottom_dict (json.FDict d key :: st) = true ->
  st = [] \/ bottom_dict st = true.
Proof. destruct st as [|f st]; auto. Qed.

Lemma step_rooted s t s' : rooted s -> json.step s t = Some s' -> rooted s'.
Proof.
  intros Hr H. apply step_inv in H. destruct H; cbn [rooted] in *.
  - now right.
  - rewrite bottom_dict_cons; [exact Hr | now apply bottom_dict_nonempty].
  - now right.
  - apply bottom_dict_list in Hr as [_ Hr]. now right.
  - exact Hr.
  - destruct Hr as [->|Hr]; [left; eauto | now right].
  - destruct Hr as [->|Hr]; [reflexivity|].
    rewrite bottom_dict_cons; [exact Hr | now apply bottom_dict_nonempty].
  - destruct Hr as [[? _]|Hr]; [discriminate | exact Hr].
  - destruct Hr as [[? _]|Hr]; [discriminate|].
    apply bottom_dict_list in Hr as [_ Hr]. now right.
  - destruct Hr as [[? _]|Hr]; [discriminate|].
    now apply bottom_dict_dict in Hr.
  - destruct Hr as [[? _]|Hr]; [discriminate|].
    apply bottom_dict_dict in Hr as [->|Hr]; [left; eauto | now right].
Qed.

Lemma run_rooted ts : forall s s',
  rooted s -> json.run s ts = Some s' -> rooted s'.
Proof.
  induction ts as [|t ts IH]; intros s s' Hr H; cbn [json.run] in H.
  - now injection H as <-.
  - destruct (json.step s t) as [s1|] eqn:Hstep; [|discriminate].
    apply (IH s1); [now apply step_rooted with s t | exact H].
Qed.

(** A text that starts with an opening brace decodes to an object, if it
    decodes at all. *)
Lemma loads_object s v :
  json.loads (String "{" s) = Ok v -> exists d, v = PDict d.
Proof.
  unfold json.loads.
  change (json.lex json.Between (String "{" s))
    with (cons json.TLBrace <$> json.lex json.Between s).
  destruct (json.lex json.Between s) as [ts|]; [|discriminate].
  cbn [fmap option_fmap option_map mbind option_bind].
  unfold json.parse.
  change (json.run (json.SValue false []) (json.TLBrace :: ts))
    with (json.run (json.SKey true [] []) ts).
  destruct (json.run (json.SKey true [] []) ts) as [s'|] eqn:Hrun;
    [|discriminate].
  apply run_rooted in Hrun; [|now left].
  cbn [mbind option_bind].
  destruct s' as [| | |v' [|f st]]; try discriminate.
  intros [= <-]. destruct Hrun as [[_ Hd]|Hd]; [exact Hd | discriminate].
Qed.

(** An array that the extracted text decodes to holds no object. *)
Lemma loads_array_plain response items :
  json.loads (extract_json response) = Ok (PList items) ->
  Forall not_dict items.
Proof.
  intros H. pose proof (extract_json_cases response) as Hshape.
  destruct (brace_pair response) eqn:Hpair.
  - destruct Hshape as (pre & body & post & _ & He). rewrite He in H.
    change ("{" +:+ body +:+ "}") with (String "{" (body +:+ "}")) in H.
    now apply loads_object in H as [d [=]].
  - rewrite Hshape in H. unfold json.loads in H.
    destruct (json.lex json.Between response) as [ts|] eqn:Hlex;
      [|discriminate].
    cbn [mbind option_bind] in H. unfold json.parse in H.
    destruct (json.run (json.SValue false []) ts) as [s|] eqn:Hrun;
      [|discriminate].
    cbn [mbind option_bind] in H.
    destruct s as [| | |v [|f st]]; try discriminate.
    injection H as ->.
    apply (run_plain ts (json.SValue false []) (PList items));
      [constructor | now apply lex_scalars in Hlex | | exact Hrun
       | reflexivity].
    apply (lex_no_close_after_open response json.Between); [|exact Hlex].
    unfold brace_pair in Hpair. now apply negb_false_iff in Hpair.
Qed.

(** X20: the branch for a reply that decodes to an array never yields a
    finding. When the text handed to [json.loads] decodes to an array, no
    item of the array is an object and the result is the empty list: an
    array that holds an object has an opening brace before a closing one,
    so the extraction keeps only the part from the first to the last brace,
    which does not decode to an array. *)
Theorem parse_api_response_bare_array response path items :
  json.loads (extract_json response) = Ok (PList items) ->
  Forall not_dict items /\ _parse_api_response response path = Ok [].
Proof.
  intros H. pose proof (loads_array_plain response items H) as Hitems.
  split; [exact Hitems|].
  rewrite (parse_api_response_array response path (PList items) items H)
    by constructor.
  now rewrite mapped_not_dict.
Qed.

Lemma parse_api_response_bare_array_witness :
  Forall not_dict [PInt 1; PList [PInt 2]]
  /\ _parse_api_response "[1, [2]]" "app.py" = Ok [].
Proof.
  apply (parse_api_response_bare_array "[1, [2]]" "app.py"
           [PInt 1; PList [PInt 2]]).
  reflexivity.
Defined.

(** A reply that is a bare array of finding objects gives no finding. *)
Example parse_api_response_array_of_objects :
  _parse_api_response
    (json_text "[{'severity': 'high', 'message': 'm'}]") "app.py" = Ok []
  /\ _parse_api_response
       (json_text "[{'severity': 'high', 'message': 'm'},
                    {'severity': 'low', 'message': 'n'}]") "app.py" = Ok []
  /\ length <$>
       _parse_api_response
         (json_text "{'findings': [{'severity': 'high', 'message': 'm'}]}")
         "app.py" = Ok 1.
Proof. repeat split; vm_compute; reflexivity. Qed.

(** X23: findings come from one shape of reply only. Whenever
    [_parse_api_response] returns at least one finding, the text it
    extracted decodes to an object whose findings field is an array, and the
    findings returned are those of the well-formed items of that array. *)
Theorem parse_api_response_findings_source response path f fs :
  _parse_api_response response path = Ok (f :: fs) ->
  exists d items,
    json.loads (extract_json response) = Ok (PDict d)
    /\ dict_lookup d "findings" = Some (PList items)
    /\ f :: fs = mapped path items.
Proof.
  intros Hrun.
  destruct (json.loads (extract_json response)) as [data|e] eqn:Hdata.
  - destruct data as [| | | | |items|d].
    1-5: unfold _parse_api_response in Hrun; rewrite Hdata in Hrun;
         discriminate.
    + apply loads_array_plain in Hdata as Hitems.
      rewrite (parse_api_response_array response path (PList items) items
                 Hdata) in Hrun by constructor.
      now rewrite mapped_not_dict in Hrun.
    + unfold _parse_api_response in Hrun. rewrite Hdata in Hrun.
      cbn [mbind result_bind try_except] in Hrun. unfold dict_get in Hrun.
      destruct (dict_lookup d "findings") as [v|] eqn:Hfield;
        [|discriminate].
      destruct v as [| | | |s|items|d']; try discriminate; simpl in Hrun.
      * now rewrite parse_each_mapped, mapped_not_dict in Hrun
          by apply chars_not_dict.
      * exists d, items. rewrite parse_each_mapped in Hrun.
        injection Hrun as Hrun. auto.
      * now rewrite parse_each_mapped, mapped_not_dict in Hrun
          by apply keys_not_dict.
  - unfold _parse_api_response in Hrun. rewrite Hdata in Hrun.
    apply loads_raises in Hdata as ->. discriminate.
Qed.

Lemma parse_api_response_findings_source_witness :
  exists d items,
    json.loads (extract_json three_items) = Ok (PDict d)
    /\ dict_lookup d "findings" = Some (PList items)
    /\ length items = 3
    /\ length (mapped "app.py" items) = 2.
Proof.
  destruct (_parse_api_response three_items "app.py") as [[|f fs]|e] eqn:Hrun;
    [vm_compute in Hrun; discriminate | | vm_compute in Hrun; discriminate].
  destruct (parse_api_response_findings_source three_items "app.py" f fs Hrun)
    as (d & items & Hdata & Hfield & Hmapped).
  exists d, items. split; [exact Hdata|]. split; [exact Hfield|].
  assert (Hd : json.loads (extract_json three_items) = Ok (PDict d))
    by exact Hdata.
  vm_compute in Hd. injection Hd as <-.
  vm_compute in Hfield. injection Hfield as <-.
  split; reflexivity.
Defined.

(** ** The SARIF document *)

Lemma add_rules_ids findings : forall rule_ids rules,
  NoDup (item "id" <$> rules) ->
  (forall id, PStr id ∈ item "id" <$> rules <-> id ∈ rule_ids) ->
  NoDup (item "id" <$> SARIFReporter.add_rules findings rule_ids rules)
  /\ forall v,
       v ∈ item "id" <$> SARIFReporter.add_rules findings rule_ids rules
       <-> v ∈ item "id" <$> rules
           \/ v ∈ (fun f => PStr (SARIFReporter._type_to_rule_id (type f)))
                    <$> findings.
Proof.
  induction findings as [|f findings IH]; intros rule_ids rules Hdup Hids;
    cbn [SARIFReporter.add_rules].
  - split; [exact Hdup|]. intros v. rewrite fmap_nil, elem_of_nil. tauto.
  - cbv zeta. rewrite fmap_cons.
    set (rule_id := SARIFReporter._type_to_rule_id (type f)).
    case_decide as Hnew.
    + set (rule := PDict _).
      assert (Hid : item "id" rule = PStr rule_id) by reflexivity.
      clearbody rule.
      destruct (IH (rule_ids ∪ {[rule_id]}) (rules ++ [rule]))
        as [Hdup' Hin'].
      * rewrite fmap_app. apply NoDup_app. split; [exact Hdup|].
        split; [|apply NoDup_singleton].
        intros v Hv [->|[]%elem_of_nil]%elem_of_cons.
        rewrite Hid in Hv. apply Hnew, Hids, Hv.
      * intros id. rewrite fmap_app, elem_of_app, elem_of_union, Hids.
        cbn [fmap list_fmap]. rewrite Hid, list_elem_of_singleton,
          elem_of_singleton.
        split; (intros [H|H]; [now left | right; congruence]).
      * split; [exact Hdup'|]. intros v.
        rewrite Hin', fmap_app, elem_of_app, elem_of_cons.
        cbn [fmap list_fmap]. rewrite Hid, list_elem_of_singleton. tauto.
    + destruct (IH rule_ids rules Hdup Hids) as [Hdup' Hin'].
      split; [exact Hdup'|]. intros v. rewrite Hin', elem_of_cons.
      assert (Hold : PStr rule_id ∈ item "id" <$> rules).
      { apply Hids. destruct (decide (rule_id ∈ rule_ids)); tauto. }
      split; [tauto|]. intros [H|[->|H]]; tauto.
Qed.

(** X21: in the SARIF document the rules are declared once each, and the
    rules declared are exactly the rules that the results refer to; there is
    one result for each finding that the reporter's minimum severity
    keeps. *)
Theorem sarif_rules_declared nonzero self result :
  let doc := SARIFReporter.sarif nonzero self result in
  let declared := item "id" <$> rules_of doc in
  let used := item "ruleId" <$> results_of doc in
  NoDup declared
  /\ (forall id, id ∈ declared <-> id ∈ used)
  /\ length (results_of doc)
     = length (AnalysisResult.findings
                 (BaseReporter.filter_findings self result)).
Proof.
  cbv zeta.
  change (rules_of (SARIFReporter.sarif nonzero self result))
    with (SARIFReporter.add_rules
            (AnalysisResult.findings (BaseReporter.filter_findings self result))
            ∅ []).
  change (results_of (SARIFReporter.sarif nonzero self result))
    with (SARIFReporter.result_item nonzero
            <$> AnalysisResult.findings
                  (BaseReporter.filter_findings self result)).
  destruct (add_rules_ids
              (AnalysisResult.findings (BaseReporter.filter_findings self result))
              ∅ []) as [Hdup Hin].
  { constructor. }
  { intros id. rewrite fmap_nil, elem_of_nil. set_solver. }
  split; [exact Hdup|]. split; [|now rewrite length_fmap].
  intros id. rewrite Hin, fmap_nil, elem_of_nil, <- list_fmap_compose.
  tauto.
Qed.

(** X22: the results of the SARIF document are those of the findings kept,
    in order. The result of a finding has the rule of its type; its level is
    error for a critical or high finding, warning for a medium one and note
    for a low or info one; its region has a start line exactly when the line
    of the finding is true, so not for a line 0 or [None], an end line
    exactly when the line and the end line are both true, and a snippet
    exactly when the snippet is true. *)
Theorem sarif_results nonzero self result :
  Forall2
    (fun f r =>
       item "ruleId" r = PStr (upper (FindingType_value (type f)))
       /\ item "level" r
          = PStr (match severity f with
                  | CRITICAL | HIGH => "error"
                  | MEDIUM => "warning"
                  | LOW | INFO => "note"
                  end)
       /\ has_key "startLine" (region_of r)
          = SARIFReporter.py_truthy nonzero (line (location f))
       /\ has_key "endLine" (region_of r)
          = SARIFReporter.py_truthy nonzero (line (location f))
            && SARIFReporter.py_truthy nonzero (end_line (location f))
       /\ has_key "snippet" (region_of r)
          = SARIFReporter.py_truthy nonzero (code_snippet f))
    (AnalysisResult.findings (BaseReporter.filter_findings self result))
    (results_of (SARIFReporter.sarif nonzero self result)).
Proof.
  change (results_of (SARIFReporter.sarif nonzero self result))
    with (SARIFReporter.result_item nonzero
            <$> AnalysisResult.findings
                  (BaseReporter.filter_findings self result)).
  apply Forall2_fmap_r, Forall_Forall2_diag, Forall_forall. intros f _.
  split; [reflexivity|]. split.
  { destruct f as [t s msg loc rem conf snip rule meta].
    now destruct s. }
  change (region_of (SARIFReporter.result_item nonzero f))
    with (PDict (SARIFReporter.region nonzero f)).
  unfold SARIFReporter.region.
  destruct (SARIFReporter.py_truthy nonzero (line (location f))),
    (SARIFReporter.py_truthy nonzero (end_line (location f))),
    (SARIFReporter.py_truthy nonzero (code_snippet f)); now vm_compute.
Qed.
